(** * DataForSEO client: a shallow embedding of [src/utils/dataforseo_client.py]

    The client is an asynchronous HTTP wrapper.  Its methods are embedded as
    computations in a small state-and-exception monad: the state is the client
    object ([self]) together with the outside world (the requests handed to
    the HTTP session and the records written to the logger), the outcome is a
    returned value, a raised exception, or a call that never resumes because
    the concurrency gate has no free slot.

    Python values that come from JSON are dynamically typed; they are embedded
    as the type [json], and every dynamic operation the client applies to them
    ([.get], [in], subscripting, iteration, [!=]) is given its Python
    behaviour on every kind of value, including the exceptions it raises. *)

From Stdlib Require Import String Ascii List ZArith Bool Arith Lia.
From Stdlib Require Import Floats.SpecFloat.
Import ListNotations.
Local Open Scope list_scope.
Local Open Scope string_scope.

Set Warnings "-register-all".

(** ** Python values *)

(** A Python [str] is modelled by a Rocq [string], one [ascii] per
    character.  A Python [float] is an IEEE binary64 number, [spec_float]. *)
Inductive json : Type :=
| JNull
| JBool (b : bool)
| JInt (n : Z)
| JFloat (x : spec_float)
| JStr (s : string)
| JList (items : list json)
| JDict (entries : list (string * json)).

Module Py.

(** [type(v).__name__] *)
Definition type_name (v : json) : string :=
  match v with
  | JNull => "NoneType"
  | JBool _ => "bool"
  | JInt _ => "int"
  | JFloat _ => "float"
  | JStr _ => "str"
  | JList _ => "list"
  | JDict _ => "dict"
  end.

(** A [dict] keeps its entries in insertion order; a key occurs once. *)
Fixpoint dict_get (d : list (string * json)) (k : string) : option json :=
  match d with
  | [] => None
  | (k', v) :: d' => if String.eqb k' k then Some v else dict_get d' k
  end.

(** [d[k] = v] *)
Fixpoint dict_set (d : list (string * json)) (k : string) (v : json)
  : list (string * json) :=
  match d with
  | [] => [(k, v)]
  | (k', v') :: d' =>
      if String.eqb k' k then (k', v) :: d' else (k', v') :: dict_set d' k v
  end.

Definition dict_has (d : list (string * json)) (k : string) : bool :=
  match dict_get d k with Some _ => true | None => false end.

(** The exact value of a float compared with an integer, as [float == int]
    does: no rounding of the integer. *)
Definition float_eq_int (x : spec_float) (n : Z) : bool :=
  match x with
  | S754_zero _ => Z.eqb n 0
  | S754_finite s m e =>
      let sm := if s then Z.neg m else Z.pos m in
      if Z.leb 0 e then Z.eqb (sm * 2 ^ e) n
      else Z.eqb sm (n * 2 ^ (- e))
  | S754_infinity _ | S754_nan => false
  end.

(** [v == n] for an [int] literal [n]: [bool] is a subtype of [int]. *)
Definition eq_int (v : json) (n : Z) : bool :=
  match v with
  | JInt m => Z.eqb m n
  | JBool b => Z.eqb (if b then 1 else 0) n
  | JFloat x => float_eq_int x n
  | JNull | JStr _ | JList _ | JDict _ => false
  end.

(** [v != n] *)
Definition ne_int (v : json) (n : Z) : bool := negb (eq_int v n).

(** [p in s] on two strings: [p] occurs in [s] as a substring. *)
Fixpoint occurs_in (p s : string) : bool :=
  String.prefix p s
  || match s with
     | EmptyString => false
     | String _ s' => occurs_in p s'
     end.

(** [[c for c in s]] *)
Fixpoint chars (s : string) : list string :=
  match s with
  | EmptyString => []
  | String c s' => String c EmptyString :: chars s'
  end.

(** Truth value of an [Optional[str]] and of an [Optional[int]] argument:
    [None], the empty string and [0] are false. *)
Definition truthy_str (o : option string) : bool :=
  match o with
  | Some (String _ _) => true
  | Some EmptyString | None => false
  end.

Definition truthy_int (o : option Z) : bool :=
  match o with
  | Some n => negb (Z.eqb n 0)
  | None => false
  end.

End Py.

(** ** Exceptions, messages and log records *)

(** A formatted message (an f-string) is kept as its pieces: literal text,
    [str()] of an interpolated value, the elapsed time of a request, and
    [str()] of an exception. *)
Inductive fragment : Type :=
| Lit (s : string)
| Fmt (v : json)
| Elapsed
| ExnText (e : exn)

with exn : Type :=
| ValueError (msg : list fragment)
| DataForSEOError (msg : list fragment)
| KeyError (key : string)
| TypeError
| AttributeError (type attr : string)
| ClientError (msg : string)                  (* aiohttp.ClientError *)
| OtherException (name msg : string).         (* any other library exception *)

Definition message := list fragment.

Inductive level := INFO | ERROR.

Definition LogRecord : Type := level * message.

(** The result of a pure Python expression: a value or a raised exception. *)
Definition result (A : Type) : Type := exn + A.

Module PyOps.
Import Py.

(** [v.get(k, default)]: only a [dict] has the method. *)
Definition get (v : json) (k : string) (default : json) : result json :=
  match v with
  | JDict d => inr (match dict_get d k with Some x => x | None => default end)
  | _ => inl (AttributeError (type_name v) "get")
  end.

(** [k in v] for a string [k]. *)
Definition contains (k : string) (v : json) : result bool :=
  match v with
  | JDict d => inr (dict_has d k)
  | JList l =>
      inr (existsb (fun x => match x with
                             | JStr s => String.eqb s k
                             | _ => false
                             end) l)
  | JStr s => inr (occurs_in k s)
  | JNull | JBool _ | JInt _ | JFloat _ => inl TypeError
  end.

(** [v[k]] for a string [k]. *)
Definition getitem (v : json) (k : string) : result json :=
  match v with
  | JDict d =>
      match dict_get d k with
      | Some x => inr x
      | None => inl (KeyError k)
      end
  | _ => inl TypeError
  end.

(** The elements a [for] loop over [v] visits. *)
Definition iter (v : json) : result (list json) :=
  match v with
  | JList l => inr l
  | JDict d => inr (map (fun kv => JStr (fst kv)) d)
  | JStr s => inr (map JStr (chars s))
  | JNull | JBool _ | JInt _ | JFloat _ => inl TypeError
  end.

End PyOps.

(** ** The client object, the world, and the monad of its methods *)

(** [aiohttp.ClientSession]: the connection pool.  Only whether it has been
    closed is observable here. *)
Record ClientSession : Type := { closed : bool }.

(** The attributes of [self] that the methods read or write.
    [rate_limiter] is the number of free slots of the [asyncio.Semaphore]. *)
Record DataForSEOClient : Type := {
  base_url : string;
  rate_limiter : nat;
  session : option ClientSession
}.

(** One call of [session.post(url, json=data)] or [session.get(url)]. *)
Record Request : Type := {
  via : ClientSession;
  http_method : string;
  url : string;
  payload : option json
}.

(** What the HTTP library does with a call: it raises from [post]/[get], or
    it yields a response whose [.json()] raises or returns the parsed body.
    The exceptions it can raise are [aiohttp.ClientError] and exceptions of
    other libraries (timeouts, JSON decoding, a closed session). *)
Inductive transport_exn : Type :=
| TClientError (msg : string)
| TOther (name msg : string).

Definition exn_of_transport (e : transport_exn) : exn :=
  match e with
  | TClientError m => ClientError m
  | TOther n m => OtherException n m
  end.

Inductive http_result : Type :=
| SendFails (e : transport_exn)
| Responds (status : Z) (body : transport_exn + json).

(** The provider and the HTTP library together: the answer to the [n]-th
    call handed to a session. *)
Definition Provider : Type := nat -> Request -> http_result.

Record World : Type := {
  provider : Provider;
  requests : list Request;
  log : list LogRecord
}.

Definition State : Type := DataForSEOClient * World.

Inductive outcome (A : Type) : Type :=
| Returns (a : A)
| Raises (e : exn)
| Blocks.

Arguments Returns {A} a.
Arguments Raises {A} e.
Arguments Blocks {A}.

Definition M (A : Type) : Type := State -> outcome A * State.

Definition ret {A} (a : A) : M A := fun st => (Returns a, st).

Definition raise {A} (e : exn) : M A := fun st => (Raises e, st).

Definition bind {A B} (m : M A) (k : A -> M B) : M B :=
  fun st =>
    match m st with
    | (Returns a, st') => k a st'
    | (Raises e, st') => (Raises e, st')
    | (Blocks, st') => (Blocks, st')
    end.

Declare Scope py_scope.
Delimit Scope py_scope with py.
Notation "x <- m ;; k" := (bind m (fun x => k))
  (at level 61, m at next level, right associativity) : py_scope.
Notation "m ;; k" := (bind m (fun _ => k))
  (at level 61, right associativity) : py_scope.
Local Open Scope py_scope.

(** What a finished call left behind. *)
Definition outcome_of {A} (x : outcome A * State) : outcome A := fst x.
Definition client_of {A} (x : outcome A * State) : DataForSEOClient :=
  fst (snd x).
Definition world_of {A} (x : outcome A * State) : World := snd (snd x).

(** A pure expression evaluated inside a method. *)
Definition eval {A} (r : result A) : M A :=
  match r with
  | inr a => ret a
  | inl e => raise e
  end.

(** [try: body  except Exception as e: handler e] *)
Definition try_except {A} (body : M A) (handler : exn -> M A) : M A :=
  fun st =>
    match body st with
    | (Raises e, st') => handler e st'
    | other => other
    end.

(** [for x in xs: acc = body x acc] *)
Fixpoint for_each {A B} (xs : list A) (body : A -> B -> M B) (acc : B) : M B :=
  match xs with
  | [] => ret acc
  | x :: xs' => acc' <- body x acc ;; for_each xs' body acc'
  end.

Definition add_log (w : World) (l : list LogRecord) : World :=
  {| provider := provider w;
     requests := requests w;
     log := (log w ++ l)%list |}.

Definition add_request (w : World) (req : Request) : World :=
  {| provider := provider w;
     requests := (requests w ++ [req])%list;
     log := log w |}.

(** [logger.info(m)] / [logger.error(m)] *)
Definition logger (l : level) (m : message) : M unit :=
  fun '(self, w) => (Returns tt, (self, add_log w [(l, m)])).

Definition self_session : M (option ClientSession) :=
  fun '(self, w) => (Returns (session self), (self, w)).

Definition self_base_url : M string :=
  fun '(self, w) => (Returns (base_url self), (self, w)).

Definition set_rate_limiter (n : nat) (self : DataForSEOClient)
  : DataForSEOClient :=
  {| base_url := base_url self; rate_limiter := n; session := session self |}.

Definition set_session (s : option ClientSession) (self : DataForSEOClient)
  : DataForSEOClient :=
  {| base_url := base_url self; rate_limiter := rate_limiter self;
     session := s |}.

(** [async with self.rate_limiter: body].  A single caller runs the body to
    its end before anything else happens; with no free slot nobody is left to
    release one, and the call never resumes.  The slot is given back on
    every way out of the body. *)
Definition async_with_rate_limiter {A} (body : M A) : M A :=
  fun '(self, w) =>
    match rate_limiter self with
    | O => (Blocks, (self, w))
    | S n =>
        match body (set_rate_limiter n self, w) with
        | (Blocks, st') => (Blocks, st')
        | (r, (self', w')) =>
            (r, (set_rate_limiter (S (rate_limiter self')) self', w'))
        end
    end.

(** [session.post] / [session.get] followed by [response.json()]: the call
    is recorded, the provider answers. *)
Definition session_send (sess : ClientSession) (method u : string)
    (data : option json) : M http_result :=
  fun '(self, w) =>
    let req := {| via := sess; http_method := method; url := u;
                  payload := data |} in
    (Returns (provider w (length (requests w)) req),
     (self, add_request w req)).

(** [endpoint.lstrip('/')] *)
Fixpoint lstrip_slash (s : string) : string :=
  match s with
  | String c s' => if Ascii.eqb c "/"%char then lstrip_slash s' else s
  | EmptyString => EmptyString
  end.

Module Client.
Import Py.

(** [__init__]: [asyncio.Semaphore] refuses a negative value. *)
Definition __init__ (rate_limit : Z) : result DataForSEOClient :=
  if Z.ltb rate_limit 0
  then inl (ValueError [Lit "Semaphore initial value must be >= 0"])
  else inr {| base_url := "https://api.dataforseo.com/v3";
              rate_limiter := Z.to_nat rate_limit;
              session := None |}.

(** [__aenter__]: a fresh open session. *)
Definition __aenter__ : M unit :=
  fun '(self, w) =>
    (Returns tt, (set_session (Some {| closed := false |}) self, w)).

(** [__aexit__]: the session is closed; the attribute keeps pointing at
    it. *)
Definition __aexit__ : M unit :=
  fun '(self, w) =>
    match session self with
    | Some _ => (Returns tt, (set_session (Some {| closed := true |}) self, w))
    | None => (Returns tt, (self, w))
    end.

(** The message of the guard of [_make_request]. *)
Definition not_initialized : exn :=
  DataForSEOError [Lit "Client not initialized. Use async context manager."].

(** The envelope check shared by both branches of [_make_request]. *)
Definition check_envelope (response_data : json) : M json :=
  code <- eval (PyOps.get response_data "status_code" JNull) ;;
  if ne_int code 20000 then
    error_msg <- eval (PyOps.get response_data "status_message"
                                 (JStr "Unknown error")) ;;
    code' <- eval (PyOps.get response_data "status_code" JNull) ;;
    raise (DataForSEOError
             [Lit "API error "; Fmt code'; Lit ": "; Fmt error_msg])
  else ret response_data.

Definition _make_request (method endpoint : string) (data : option json)
  : M json :=
  s <- self_session ;;
  match s with
  | None => raise not_initialized
  | Some sess =>
      base <- self_base_url ;;
      let u := base ++ "/" ++ lstrip_slash endpoint in
      async_with_rate_limiter
        (try_except
           (logger INFO [Lit (method ++ " " ++ u)] ;;
            answer <- (if String.eqb method "POST"
                       then session_send sess "POST" u data
                       else session_send sess "GET" u None) ;;
            match answer with
            | SendFails e => raise (exn_of_transport e)
            | Responds status body =>
                logger INFO [Lit (method ++ " " ++ u ++ " - ");
                             Fmt (JInt status); Lit " - "; Elapsed; Lit "s"] ;;
                match body with
                | inl e => raise (exn_of_transport e)
                | inr response_data => check_envelope response_data
                end
            end)
           (fun e =>
              match e with
              | ClientError _ =>
                  logger ERROR [Lit (method ++ " " ++ u ++ " - FAILED - ");
                                Elapsed; Lit "s - "; ExnText e] ;;
                  raise (DataForSEOError [Lit "Request failed: "; ExnText e])
              | _ =>
                  logger ERROR [Lit (method ++ " " ++ u ++ " - ERROR - ");
                                Elapsed; Lit "s - "; ExnText e] ;;
                  raise e
              end))
  end.

(** *** Result records *)

Record SearchVolumeResult : Type := {
  keyword : json;
  search_volume : json;
  monthly_searches : json;
  location_code : json;
  language_code : json;
  use_clickstream : json
}.

Record GlobalSearchVolumeResult : Type := {
  global_keyword : json;
  global_search_volume : json;
  country_distribution : json
}.

(** The Python value of an optional argument. *)
Definition str_value (o : option string) : json :=
  match o with Some s => JStr s | None => JNull end.

Definition int_value (o : option Z) : json :=
  match o with Some n => JInt n | None => JNull end.

Definition is_empty {A} (l : list A) : bool :=
  match l with [] => true | _ :: _ => false end.

(** *** get_locations_and_languages *)

Definition get_locations_and_languages : M json :=
  _make_request "GET"
    "keywords_data/clickstream_data/locations_and_languages" None.

(** *** get_search_volume *)

(** Body of the inner loop, lines 229-240. *)
Definition search_volume_item (result : json)
    (results : list SearchVolumeResult) : M (list SearchVolumeResult) :=
  has_keyword <- eval (PyOps.contains "keyword" result) ;;
  has_volume <- (if has_keyword
                 then eval (PyOps.contains "search_volume" result)
                 else ret false) ;;
  if has_keyword && has_volume then
    kw <- eval (PyOps.getitem result "keyword") ;;
    sv <- eval (PyOps.getitem result "search_volume") ;;
    ms <- eval (PyOps.get result "monthly_searches" (JList [])) ;;
    lc <- eval (PyOps.get result "location_code" JNull) ;;
    lg <- eval (PyOps.get result "language_code" JNull) ;;
    uc <- eval (PyOps.get result "use_clickstream" (JBool true)) ;;
    let results' :=
      (results ++ [{| keyword := kw; search_volume := sv;
                      monthly_searches := ms; location_code := lc;
                      language_code := lg; use_clickstream := uc |}])%list in
    kw' <- eval (PyOps.getitem result "keyword") ;;
    sv' <- eval (PyOps.getitem result "search_volume") ;;
    logger INFO [Lit "Processed keyword: "; Fmt kw';
                 Lit " - Volume: "; Fmt sv'] ;;
    ret results'
  else ret results.

(** Body of the outer loop, lines 222-240. *)
Definition search_volume_task (task : json)
    (results : list SearchVolumeResult) : M (list SearchVolumeResult) :=
  code <- eval (PyOps.get task "status_code" JNull) ;;
  if ne_int code 20000 then
    m <- eval (PyOps.get task "status_message" JNull) ;;
    logger ERROR [Lit "Task error: "; Fmt m] ;;
    d <- eval (PyOps.get task "data" JNull) ;;
    logger ERROR [Lit "Task data: "; Fmt d] ;;
    ret results
  else
    rs <- eval (PyOps.get task "result" (JList [])) ;;
    items <- eval (PyOps.iter rs) ;;
    for_each items search_volume_item results.

(** Lines 221-242. *)
Definition parse_search_volume (response : json)
  : M (list SearchVolumeResult) :=
  ts <- eval (PyOps.get response "tasks" (JList [])) ;;
  tasks <- eval (PyOps.iter ts) ;;
  for_each tasks search_volume_task [].

(** Lines 197-214. *)
Definition search_volume_payload (keywords : list string)
    (location_name : option string) (location_code : option Z)
    (language_name language_code : option string)
    (use_clickstream : bool) (tag : option string) : json :=
  let payload0 := [("keywords", JList (map JStr keywords));
                   ("use_clickstream", JBool use_clickstream)] in
  let payload0 :=
    if truthy_str location_name
    then dict_set payload0 "location_name" (str_value location_name)
    else if truthy_int location_code
         then dict_set payload0 "location_code" (int_value location_code)
         else payload0 in
  let payload0 :=
    if truthy_str language_name
    then dict_set payload0 "language_name" (str_value language_name)
    else if truthy_str language_code
         then dict_set payload0 "language_code" (str_value language_code)
         else payload0 in
  let payload0 :=
    if truthy_str tag then dict_set payload0 "tag" (str_value tag)
    else payload0 in
  JList [JDict payload0].

Definition get_search_volume (keywords : list string)
    (location_name : option string) (location_code : option Z)
    (language_name language_code : option string)
    (use_clickstream : bool) (tag : option string)
  : M (list SearchVolumeResult) :=
  if is_empty keywords then
    raise (ValueError [Lit "Keywords list cannot be empty"])
  else if Nat.ltb 1000 (length keywords) then
    raise (ValueError [Lit "Maximum 1000 keywords allowed per request"])
  else if negb (truthy_str location_name || truthy_int location_code) then
    raise (ValueError
             [Lit "Either location_name or location_code is required"])
  else if negb (truthy_str language_name || truthy_str language_code) then
    raise (ValueError
             [Lit "Either language_name or language_code is required"])
  else
    let payload := search_volume_payload keywords location_name
                     location_code language_name language_code
                     use_clickstream tag in
    response <- _make_request "POST"
                  "keywords_data/google/search_volume/live"
                  (Some payload) ;;
    parse_search_volume response.

(** *** get_global_search_volume *)

(** Lines 265-267. *)
Definition check_keyword_lengths (keywords : list string) : M unit :=
  for_each keywords
    (fun keyword _ =>
       if Nat.ltb (String.length keyword) 3 then
         raise (ValueError [Lit ("Keyword '" ++ keyword
                                 ++ "' must be at least 3 characters")])
       else ret tt) tt.

(** Lines 270-275. *)
Definition global_payload (keywords : list string) (tag : option string)
  : json :=
  let payload0 := [("keywords", JList (map JStr keywords))] in
  let payload0 :=
    if truthy_str tag then dict_set payload0 "tag" (str_value tag)
    else payload0 in
  JList [JDict payload0].

(** Lines 324-334. *)
Definition by_location_payload (keywords : list string)
    (location_name : option string) (location_code : option Z)
    (tag : option string) : json :=
  let payload0 := [("keywords", JList (map JStr keywords))] in
  let payload0 :=
    if truthy_str location_name
    then dict_set payload0 "location_name" (str_value location_name)
    else if truthy_int location_code
         then dict_set payload0 "location_code" (int_value location_code)
         else payload0 in
  let payload0 :=
    if truthy_str tag then dict_set payload0 "tag" (str_value tag)
    else payload0 in
  JList [JDict payload0].

(** Lines 289-294. *)
Definition global_item (item : json)
    (results : list GlobalSearchVolumeResult)
  : M (list GlobalSearchVolumeResult) :=
  kw <- eval (PyOps.getitem item "keyword") ;;
  sv <- eval (PyOps.getitem item "search_volume") ;;
  cd <- eval (PyOps.get item "country_distribution" (JList [])) ;;
  ret (results ++ [{| global_keyword := kw; global_search_volume := sv;
                      country_distribution := cd |}])%list.

(** The two nested loops below the task check, shared in shape by the two
    clickstream operations: [for result in task.get("result", [])],
    [for item in result.get("items", [])]. *)
Definition nested_items {R} (item_body : json -> json -> list R -> M (list R))
    (task : json) (results : list R) : M (list R) :=
  rs <- eval (PyOps.get task "result" (JList [])) ;;
  rl <- eval (PyOps.iter rs) ;;
  for_each rl
    (fun result acc =>
       its <- eval (PyOps.get result "items" (JList [])) ;;
       il <- eval (PyOps.iter its) ;;
       for_each il (item_body result) acc)
    results.

(** Lines 283-294 and 342-354: the task check logs one record. *)
Definition clickstream_task {R}
    (item_body : json -> json -> list R -> M (list R))
    (task : json) (results : list R) : M (list R) :=
  code <- eval (PyOps.get task "status_code" JNull) ;;
  if ne_int code 20000 then
    m <- eval (PyOps.get task "status_message" JNull) ;;
    logger ERROR [Lit "Task error: "; Fmt m] ;;
    ret results
  else nested_items item_body task results.

Definition parse_clickstream {R}
    (item_body : json -> json -> list R -> M (list R)) (response : json)
  : M (list R) :=
  ts <- eval (PyOps.get response "tasks" (JList [])) ;;
  tasks <- eval (PyOps.iter ts) ;;
  for_each tasks (clickstream_task item_body) [].

Definition get_global_search_volume (keywords : list string)
    (tag : option string) : M (list GlobalSearchVolumeResult) :=
  if is_empty keywords then
    raise (ValueError [Lit "Keywords list cannot be empty"])
  else if Nat.ltb 1000 (length keywords) then
    raise (ValueError [Lit "Maximum 1000 keywords allowed per request"])
  else
    check_keyword_lengths keywords ;;
    let payload := global_payload keywords tag in
    response <- _make_request "POST"
      "keywords_data/clickstream_data/search_volume_normalized/live"
      (Some payload) ;;
    parse_clickstream (fun _ => global_item) response.

(** *** get_search_volume_by_location *)

(** Lines 349-354. *)
Definition by_location_item (result item : json)
    (results : list SearchVolumeResult) : M (list SearchVolumeResult) :=
  kw <- eval (PyOps.getitem item "keyword") ;;
  sv <- eval (PyOps.getitem item "search_volume") ;;
  ms <- eval (PyOps.get item "monthly_searches" (JList [])) ;;
  lc <- eval (PyOps.get result "location_code" JNull) ;;
  ret (results ++ [{| keyword := kw; search_volume := sv;
                      monthly_searches := ms; location_code := lc;
                      language_code := JNull;
                      use_clickstream := JBool true |}])%list.

Definition get_search_volume_by_location (keywords : list string)
    (location_name : option string) (location_code : option Z)
    (tag : option string) : M (list SearchVolumeResult) :=
  if is_empty keywords then
    raise (ValueError [Lit "Keywords list cannot be empty"])
  else if negb (truthy_str location_name || truthy_int location_code) then
    raise (ValueError
             [Lit "Either location_name or location_code is required"])
  else
    let payload := by_location_payload keywords location_name
                     location_code tag in
    response <- _make_request "POST"
      "keywords_data/clickstream_data/search_volume_by_location/live"
      (Some payload) ;;
    parse_clickstream by_location_item response.

End Client.

(** ** Reading a provider response

    The response envelope of the wire protocol, read without the client:
    these definitions say what the claims mean by a succeeding task, its items
    and the record built from an item.  The theorems below compare the
    client's loops with them. *)

Module Envelope.
Import Py Client.

(** [d.get(k)] *)
Definition field (d : list (string * json)) (k : string) : json :=
  match dict_get d k with Some x => x | None => JNull end.

Definition field_or (d : list (string * json)) (k : string) (default : json)
  : json :=
  match dict_get d k with Some x => x | None => default end.

Definition is_dict (v : json) : bool :=
  match v with JDict _ => true | _ => false end.

(** An object whose [status_code] is the success code. *)
Definition succeeds (v : json) : bool :=
  match v with
  | JDict d => eq_int (field d "status_code") 20000
  | _ => false
  end.

(** The elements of the list under key [k] of object [v]; none when the
    key is absent. *)
Definition list_under (k : string) (v : json) : list json :=
  match v with
  | JDict d =>
      match dict_get d k with
      | Some (JList l) => l
      | _ => []
      end
  | _ => []
  end.

(** Object [v] holds under [k], if anything, a list of objects. *)
Definition objects_under (k : string) (v : json) : bool :=
  match v with
  | JDict d =>
      match dict_get d k with
      | None => true
      | Some (JList l) => forallb is_dict l
      | Some _ => false
      end
  | _ => false
  end.

Definition has_field (k : string) (v : json) : bool :=
  match v with JDict d => dict_has d k | _ => false end.

Definition has_both (v : json) : bool :=
  has_field "keyword" v && has_field "search_volume" v.

Definition get_field (k : string) (default : json) (v : json) : json :=
  match v with JDict d => field_or d k default | _ => default end.

(** The record of one item of the locale-scoped endpoint. *)
Definition record_of (item : json) : SearchVolumeResult :=
  {| keyword := get_field "keyword" JNull item;
     search_volume := get_field "search_volume" JNull item;
     monthly_searches := get_field "monthly_searches" (JList []) item;
     location_code := get_field "location_code" JNull item;
     language_code := get_field "language_code" JNull item;
     use_clickstream := get_field "use_clickstream" (JBool true) item |}.

(** Tasks of the shape the locale-scoped endpoint sends: an object whose
    [result], when present, is a list of objects. *)
Definition flat_task (t : json) : bool := objects_under "result" t.

(** What a task contributes: the records of its items that carry both
    fields, in order. *)
Definition records_of_task (t : json) : list SearchVolumeResult :=
  map record_of (filter has_both (list_under "result" t)).

(** The log record written for an item that was turned into a record. *)
Definition processed_record (item : json) : LogRecord :=
  (INFO, [Lit "Processed keyword: "; Fmt (get_field "keyword" JNull item);
          Lit " - Volume: "; Fmt (get_field "search_volume" JNull item)]).

(** The error that carries the provider's status code and message. *)
Definition provider_error (d : list (string * json)) : exn :=
  DataForSEOError
    [Lit "API error "; Fmt (field d "status_code"); Lit ": ";
     Fmt (field_or d "status_message" (JStr "Unknown error"))].

(** The outcome of the envelope check on a parsed body. *)
Definition envelope_outcome (resp : json) : outcome json :=
  match resp with
  | JDict d =>
      if eq_int (field d "status_code") 20000 then Returns resp
      else Raises (provider_error d)
  | _ => Raises (AttributeError (type_name resp) "get")
  end.

(** The provider answers the next call, whatever it is, with body
    [resp]. *)
Definition answers (w : World) (resp : json) : Prop :=
  forall req, exists status,
    provider w (length (requests w)) req = Responds status (inr resp).

(** The call the client hands to its session. *)
Definition request_of (self : DataForSEOClient) (sess : ClientSession)
    (method endpoint : string) (data : option json) : Request :=
  {| via := sess;
     http_method := method;
     url := base_url self ++ "/" ++ endpoint;
     payload := data |}.

(** The log records of the per-task check of [get_search_volume]. *)
Definition task_error_records (t : json) : list LogRecord :=
  [(ERROR, [Lit "Task error: "; Fmt (get_field "status_message" JNull t)]);
   (ERROR, [Lit "Task data: "; Fmt (get_field "data" JNull t)])].

(** The log records one task adds while [get_search_volume] parses it. *)
Definition task_log (t : json) : list LogRecord :=
  if succeeds t
  then map processed_record (filter has_both (list_under "result" t))
  else task_error_records t.

(** A task [get_search_volume] can walk: an object, well shaped when it
    succeeds (the result of a failing task is never looked at). *)
Definition locale_task (t : json) : bool :=
  is_dict t && implb (succeeds t) (flat_task t).

(** Tasks of the shape the clickstream endpoints send: an object whose
    [result], when present, is a list of objects whose [items], when
    present, is a list of objects. *)
Definition nested_task (t : json) : bool :=
  objects_under "result" t
  && forallb (objects_under "items") (list_under "result" t).

(** The (result, item) pairs of a task in the order the loops visit them. *)
Definition pairs_of_task (t : json) : list (json * json) :=
  flat_map (fun r => map (pair r) (list_under "items" r))
           (list_under "result" t).

(** The pairs of the succeeding tasks of a response. *)
Definition visited (tasks : list json) : list (json * json) :=
  flat_map pairs_of_task (filter succeeds tasks).

(** The first of the two required fields that an item lacks. *)
Definition missing_key (item : json) : option string :=
  if negb (has_field "keyword" item) then Some "keyword"
  else if negb (has_field "search_volume" item) then Some "search_volume"
  else None.

Definition global_record_of (p : json * json) : GlobalSearchVolumeResult :=
  {| global_keyword := get_field "keyword" JNull (snd p);
     global_search_volume := get_field "search_volume" JNull (snd p);
     country_distribution :=
       get_field "country_distribution" (JList []) (snd p) |}.

Definition by_location_record_of (p : json * json) : SearchVolumeResult :=
  {| keyword := get_field "keyword" JNull (snd p);
     search_volume := get_field "search_volume" JNull (snd p);
     monthly_searches := get_field "monthly_searches" (JList []) (snd p);
     location_code := get_field "location_code" JNull (fst p);
     language_code := JNull;
     use_clickstream := JBool true |}.

(** The first required field missing among the visited items. *)
Definition first_missing (ps : list (json * json)) : option string :=
  match find (fun p => negb (has_both (snd p))) ps with
  | Some p => missing_key (snd p)
  | None => None
  end.

(** The outcome of walking the pairs [ps] from accumulator [acc]: the
    records of all of them, or [KeyError] at the first incomplete item. *)
Definition walk {R} (record : json * json -> R) (acc : list R)
    (ps : list (json * json)) : outcome (list R) :=
  match first_missing ps with
  | Some k => Raises (KeyError k)
  | None => Returns (acc ++ map record ps)%list
  end.

(** A task the clickstream operations can walk: an object, well shaped when
    it succeeds. *)
Definition walkable_task (t : json) : bool :=
  is_dict t && implb (succeeds t) (nested_task t).

(** How [_make_request] ends, given what the HTTP library did with the
    call. *)
Definition transport_failure (e : transport_exn) : exn :=
  match e with
  | TClientError m =>
      DataForSEOError [Lit "Request failed: "; ExnText (ClientError m)]
  | TOther n m => OtherException n m
  end.

Definition request_outcome (answer : http_result) : outcome json :=
  match answer with
  | SendFails e => Raises (transport_failure e)
  | Responds _ (inl e) => Raises (transport_failure e)
  | Responds _ (inr resp) => envelope_outcome resp
  end.

(** The call [_make_request] hands to the session. *)
Definition sent_request (self : DataForSEOClient) (sess : ClientSession)
    (method endpoint : string) (data : option json) : Request :=
  if String.eqb method "POST"
  then request_of self sess "POST" (lstrip_slash endpoint) data
  else request_of self sess "GET" (lstrip_slash endpoint) None.

(** Outcomes of the parsing loops: a value, or one of the lookup errors of
    the dynamic operations. *)
Definition lookup_outcome {A} (r : outcome A) : Prop :=
  match r with
  | Returns _ => True
  | Raises (KeyError _) | Raises TypeError | Raises (AttributeError _ _) => True
  | Raises _ => False
  | Blocks => False
  end.

(** A computation that only reads its arguments and writes log records:
    its outcome and the records it writes are the same in every state, and
    it leaves the client and the requests alone. *)
Definition log_only {A} (m : M A) : Prop :=
  exists r l,
    lookup_outcome r /\ forall self w, m (self, w) = (r, (self, add_log w l)).

(** The provider answers the next two calls alike, whatever they are. *)
Definition fixed_response (w : World) : Prop :=
  forall req,
    provider w (length (requests w)) req
    = provider w (S (length (requests w))) req.

(** A method called twice in a row, the second call in the state the first
    one left: the client is unchanged by the first call and both calls end
    alike. *)
Definition same_twice {A} (q : M A) (st : State) : Prop :=
  client_of (q st) = fst st
  /\ outcome_of (q (snd (q st))) = outcome_of (q st).

End Envelope.

(** ** Argument validity, as the operations' input contracts word it *)

Module Args.
Import Py Client.

(** A locale or language field counts as supplied when Python finds it
    true: not [None], not the empty string, not [0]. *)
Definition supplied (name : option string) (code : option Z) : bool :=
  truthy_str name || truthy_int code.

Definition supplied_str (name code : option string) : bool :=
  truthy_str name || truthy_str code.

Definition valid_search_volume (keywords : list string)
    (location_name : option string) (location_code : option Z)
    (language_name language_code : option string) : bool :=
  negb (is_empty keywords)
  && Nat.leb (length keywords) 1000
  && supplied location_name location_code
  && supplied_str language_name language_code.

Definition valid_global (keywords : list string) : bool :=
  negb (is_empty keywords)
  && Nat.leb (length keywords) 1000
  && forallb (fun k => Nat.leb 3 (String.length k)) keywords.

Definition valid_by_location (keywords : list string)
    (location_name : option string) (location_code : option Z) : bool :=
  negb (is_empty keywords) && supplied location_name location_code.

(** The request object of [get_search_volume], field by field. *)
Definition locale_field (name : option string) (code : option Z)
  : list (string * json) :=
  if truthy_str name then [("location_name", str_value name)]
  else [("location_code", int_value code)].

Definition language_field (name code : option string)
  : list (string * json) :=
  if truthy_str name then [("language_name", str_value name)]
  else [("language_code", str_value code)].

Definition tag_field (tag : option string) : list (string * json) :=
  if truthy_str tag then [("tag", str_value tag)] else [].

Definition request_object (keywords : list string)
    (location_name : option string) (location_code : option Z)
    (language_name language_code : option string)
    (use_clickstream : bool) (tag : option string)
  : list (string * json) :=
  ([("keywords", JList (map JStr keywords));
    ("use_clickstream", JBool use_clickstream)]
   ++ locale_field location_name location_code
   ++ language_field language_name language_code
   ++ tag_field tag)%list.

End Args.

(** ** Worlds and fixtures *)

Module Fixture.
Import Py Client.

(** A provider that answers every call with the same body. *)
Definition always (resp : json) : Provider :=
  fun _ _ => Responds 200 (inr resp).

(** The HTTP library refuses a call through a closed session. *)
Definition refuse_closed (p : Provider) : Provider :=
  fun n req =>
    if closed (via req)
    then SendFails (TOther "RuntimeError" "Session is closed")
    else p n req.

Definition world (p : Provider) : World :=
  {| provider := p; requests := []; log := [] |}.

(** [DataForSEOClient(login, password)] with the default rate limit. *)
Definition fresh : DataForSEOClient :=
  {| base_url := "https://api.dataforseo.com/v3";
     rate_limiter := 12;
     session := None |}.

(** Inside [async with]. *)
Definition entered : DataForSEOClient :=
  set_session (Some {| closed := false |}) fresh.

(** After the [async with] block. *)
Definition released : DataForSEOClient :=
  set_session (Some {| closed := true |}) fresh.

Definition obj (l : list (string * json)) : json := JDict l.

Definition month (y m v : Z) : json :=
  JDict [("year", JInt y); ("month", JInt m); ("search_volume", JInt v)].

(** Two items with both fields; the months of the first are not in
    chronological order. *)
Definition item_a : json :=
  JDict [("keyword", JStr "running shoes"); ("search_volume", JInt 5400);
         ("monthly_searches",
          JList [month 2025 3 6000; month 2025 1 5000; month 2025 2 5200])].

Definition item_b : json :=
  JDict [("keyword", JStr "trail shoes"); ("search_volume", JNull)].

(** An item without [search_volume]. *)
Definition item_partial : json := JDict [("keyword", JStr "sandals")].

Definition task_ok (items : list json) : json :=
  JDict [("status_code", JInt 20000); ("status_message", JStr "Ok.");
         ("result", JList items)].

Definition task_failed : json :=
  JDict [("status_code", JInt 40501);
         ("status_message", JStr "Invalid Field: 'keywords'.");
         ("result", JNull)].

Definition envelope (tasks : list json) : json :=
  JDict [("status_code", JInt 20000); ("status_message", JStr "Ok.");
         ("tasks", JList tasks)].

Definition envelope_failed : json :=
  JDict [("status_code", JInt 40100);
         ("status_message", JStr "You are not authorized.");
         ("tasks", JNull)].

(** A clickstream task: items nested under [result[].items]. *)
Definition nested_ok (items : list json) : json :=
  JDict [("status_code", JInt 20000);
         ("result", JList [JDict [("location_code", JInt 2840);
                                  ("items", JList items)]])].

End Fixture.

(** ** A caller: [process_keywords_batch] of [scripts/process_master_keywords.py] *)

Module Batch.
Import Py Client.

(** [str.lower()] on the characters below U+0100: the upper-case letters are
    A-Z, U+00C0-U+00D6 and U+00D8-U+00DE, each 32 below its lower-case
    form. *)
Definition lower_char (c : ascii) : ascii :=
  let n := nat_of_ascii c in
  if (Nat.leb 65 n && Nat.leb n 90)
     || (Nat.leb 192 n && Nat.leb n 222 && negb (Nat.eqb n 215))
  then ascii_of_nat (n + 32)
  else c.

Fixpoint lower (s : string) : string :=
  match s with
  | EmptyString => EmptyString
  | String c s' => String (lower_char c) (lower s')
  end.

(** [v.lower()]: only a [str] has the method. *)
Definition str_lower (v : json) : result string :=
  match v with
  | JStr s => inr (lower s)
  | _ => inl (AttributeError (type_name v) "lower")
  end.

(** [{r.keyword.lower() for r in search_results}], its elements in the order
    met; the first keyword that is not a string ends it. *)
Fixpoint lowered_keywords (search_results : list SearchVolumeResult)
  : result (list string) :=
  match search_results with
  | [] => inr []
  | r :: rest =>
      match str_lower (keyword r) with
      | inl e => inl e
      | inr k =>
          match lowered_keywords rest with
          | inl e => inl e
          | inr ks => inr (k :: ks)
          end
      end
  end.

(** One output row: [{"keyword": ..., "volume": ..., "date": ...}]. *)
Definition row (kw volume : json) (current_date : string) : json :=
  JDict [("keyword", kw); ("volume", volume); ("date", JStr current_date)].

(** [result.search_volume if result.search_volume is not None else 0] *)
Definition volume_or_zero (v : json) : json :=
  match v with JNull => JInt 0 | _ => v end.

(** What the script writes with [print]. *)
Definition Console : Type := list message.

(** [process_keywords_batch(client, keywords, location_code)];
    [current_date] is [datetime.now().strftime("%Y-%m-%d")].  Only
    [DataForSEOError] is caught. *)
Definition process_keywords_batch (current_date : string)
    (keywords : list string) (location_code : Z)
  : State * Console -> outcome (list json) * (State * Console) :=
  fun '(st, out) =>
    match get_search_volume keywords None (Some location_code) None
            (Some "en") true None st with
    | (Returns search_results, st') =>
        let results :=
          map (fun r => row (keyword r) (volume_or_zero (search_volume r))
                            current_date) search_results in
        match lowered_keywords search_results with
        | inl e => (Raises e, (st', out))
        | inr found_keywords =>
            let missing :=
              filter (fun k => negb (existsb (String.eqb (lower k))
                                             found_keywords)) keywords in
            (Returns (results
                      ++ map (fun k => row (JStr k) (JInt 0) current_date)
                             missing)%list,
             (st', out))
        end
    | (Raises (DataForSEOError msg), st') =>
        (Returns (map (fun k => row (JStr k) (JInt (-1)) current_date)
                      keywords),
         (st', (out ++ [[Lit "Error processing batch: ";
                         ExnText (DataForSEOError msg)]])%list))
    | (Raises e, st') => (Raises e, (st', out))
    | (Blocks, st') => (Blocks, (st', out))
    end.

(** The keyword of a row, lower-cased, when it is a string. *)
Definition row_key (r : json) : option string :=
  match r with
  | JDict d =>
      match dict_get d "keyword" with
      | Some (JStr s) => Some (lower s)
      | _ => None
      end
  | _ => None
  end.

Definition row_volume (r : json) : option json :=
  match r with
  | JDict d => dict_get d "volume"
  | _ => None
  end.

Definition is_str (v : json) : bool :=
  match v with JStr _ => true | _ => false end.

(** Keyword [k] of the batch and the keyword of record [r] are the same
    string up to case. *)
Definition same_up_to_case (k : string) (r : SearchVolumeResult) : bool :=
  match keyword r with
  | JStr s => String.eqb (lower k) (lower s)
  | _ => false
  end.

(** The keywords of the batch that no record matches, in the batch's
    order. *)
Definition unmatched (search_results : list SearchVolumeResult)
    (keywords : list string) : list string :=
  filter (fun k => negb (existsb (same_up_to_case k) search_results))
         keywords.

End Batch.

(** ** A caller's helper: [clean_keyword_for_api] of
    [scripts/update_firestore_search_volumes_clean.py] *)

Module Cleaning.

(** [s.replace(old, new)] for a non-empty [old]: occurrences are replaced
    from left to right and do not overlap.  [skip] counts the characters of
    an occurrence still to pass over. *)
Fixpoint replace_from (old new : string) (skip : nat) (s : string) : string :=
  match s with
  | EmptyString => EmptyString
  | String c s' =>
      match skip with
      | S n => replace_from old new n s'
      | O =>
          if String.prefix old s
          then new ++ replace_from old new (String.length old - 1) s'
          else String c (replace_from old new 0 s')
      end
  end.

Definition replace (old new s : string) : string := replace_from old new 0 s.

Definition dot_or_comma (c : ascii) : bool :=
  Ascii.eqb c "."%char || Ascii.eqb c ","%char.

(** [s.rstrip('.,')] *)
Fixpoint rstrip_dots (s : string) : string :=
  match s with
  | EmptyString => EmptyString
  | String c s' =>
      match rstrip_dots s' with
      | EmptyString => if dot_or_comma c then EmptyString
                       else String c EmptyString
      | r => String c r
      end
  end.

(** The [replacements] dict, in insertion order. *)
Definition replacements : list (string * string) :=
  [(", Inc.", ""); (".Ai", " AI"); (".AI", " AI"); (".Io", " IO");
   (".IO", " IO"); (".Com", ""); (".com", ""); ("2.5", "2")].

(** The attributes of the updater that the method touches. *)
Record FirestoreKeywordUpdater : Type := {
  keyword_mapping : list (string * string);
  modified_keywords : list (string * string)
}.

Definition cleaned (keyword : string) : string :=
  rstrip_dots
    (fold_left (fun k r => replace (fst r) (snd r) k) replacements keyword).

Definition clean_keyword_for_api (keyword : string)
  : FirestoreKeywordUpdater * list LogRecord
    -> (string * bool) * (FirestoreKeywordUpdater * list LogRecord) :=
  fun '(self, lg) =>
    let original := keyword in
    let keyword := cleaned original in
    let was_modified := negb (String.eqb keyword original) in
    if was_modified then
      ((keyword, was_modified),
       ({| keyword_mapping := keyword_mapping self;
           modified_keywords :=
             (modified_keywords self ++ [(original, keyword)])%list |},
        (lg ++ [(INFO, [Lit ("Cleaned keyword: '" ++ original ++ "' -> '"
                             ++ keyword ++ "'")])])%list))
    else ((keyword, was_modified), (self, lg)).

(** [c] occurs in [s]. *)
Fixpoint has_char (f : ascii -> bool) (s : string) : bool :=
  match s with
  | EmptyString => false
  | String c s' => f c || has_char f s'
  end.

(** The last character of [s] satisfies [f]. *)
Fixpoint last_is (f : ascii -> bool) (s : string) : bool :=
  match s with
  | EmptyString => false
  | String c EmptyString => f c
  | String _ s' => last_is f s'
  end.

End Cleaning.

(** ** Shapes named by the further properties *)

Module Shapes.
Import Py Client Envelope.

(** A value a [for] loop cannot walk. *)
Definition not_iterable (v : json) : bool :=
  match v with
  | JNull | JBool _ | JInt _ | JFloat _ => true
  | JStr _ | JList _ | JDict _ => false
  end.

(** The record [_make_request] logs when the HTTP library raises. *)
Definition failure_record (method u : string) (e : transport_exn)
  : LogRecord :=
  (ERROR,
   [Lit (method ++ " " ++ u
         ++ match e with
            | TClientError _ => " - FAILED - "
            | TOther _ _ => " - ERROR - "
            end);
    Elapsed; Lit "s - "; ExnText (exn_of_transport e)]).

(** The HTTP library raises [e] on the call: from [post]/[get], or from
    [response.json()]. *)
Definition transport_raises (answer : http_result) (e : transport_exn)
  : Prop :=
  answer = SendFails e \/ exists status, answer = Responds status (inl e).

(** The object of the request of the two clickstream operations. *)
Definition clickstream_object (keywords : list string)
    (location : list (string * json)) (tag : option string)
  : list (string * json) :=
  ([("keywords", JList (map JStr keywords))] ++ location
   ++ Args.tag_field tag)%list.

(** What one invocation may do to the client and the world: the client is
    as before, the provider is as before, the session was handed no call or
    one, and the log has only grown. *)
Definition one_call_at_most {A} (q : M A) (self : DataForSEOClient)
    (w : World) : Prop :=
  client_of (q (self, w)) = self
  /\ provider (world_of (q (self, w))) = provider w
  /\ (requests (world_of (q (self, w))) = requests w
      \/ exists req,
           requests (world_of (q (self, w))) = (requests w ++ [req])%list)
  /\ exists l, log (world_of (q (self, w))) = (log w ++ l)%list.

(** The error [aiohttp] raises when a call is made through a session that
    has been closed ([Fixture.refuse_closed]). *)
Definition session_closed : exn :=
  OtherException "RuntimeError" "Session is closed".

(** How a call on a released client ends when the HTTP library refuses
    closed sessions: the call [method endpoint data] is handed to the closed
    session of [self], the caller sees the library's own error, and the
    client is as before. *)
Definition refused_by_closed_session {A} (run : outcome A * State)
    (self : DataForSEOClient) (w : World) (method endpoint : string)
    (data : option json) : Prop :=
  outcome_of run = Raises session_closed
  /\ client_of run = self
  /\ requests (world_of run)
     = (requests w
        ++ [request_of self {| closed := true |} method endpoint data])%list.

End Shapes.

(** * Properties *)

Import Py Client Envelope Args.

(** ** The world and the monad *)

Lemma add_log_nil : forall w, add_log w [] = w.
Proof.
  intros [p r l]. unfold add_log. simpl. now rewrite app_nil_r.
Qed.

Lemma add_log_app : forall w l1 l2,
  add_log (add_log w l1) l2 = add_log w (l1 ++ l2)%list.
Proof.
  intros [p r l] l1 l2. unfold add_log. simpl. now rewrite app_assoc.
Qed.

Lemma restore_rate_limiter : forall self n,
  rate_limiter self = S n ->
  set_rate_limiter (S n) (set_rate_limiter n self) = self.
Proof.
  intros [b r s] n H. simpl in H. subst r. reflexivity.
Qed.

(** ** [_make_request] *)

Lemma make_request_unacquired : forall method endpoint data self w,
  session self = None ->
  _make_request method endpoint data (self, w)
  = (Raises not_initialized, (self, w)).
Proof.
  intros. unfold _make_request, bind, self_session. rewrite H. reflexivity.
Qed.

Lemma make_request_blocked : forall method endpoint data self w sess,
  session self = Some sess -> rate_limiter self = 0 ->
  _make_request method endpoint data (self, w) = (Blocks, (self, w)).
Proof.
  intros. unfold _make_request, bind, self_session, self_base_url.
  rewrite H. unfold async_with_rate_limiter. rewrite H0. reflexivity.
Qed.

Lemma check_envelope_outcome : forall resp st,
  check_envelope resp st = (envelope_outcome resp, st).
Proof.
  intros resp st.
  unfold check_envelope, envelope_outcome, provider_error, bind, eval.
  destruct resp; try reflexivity.
  simpl. unfold ne_int, field, field_or.
  destruct (dict_get entries "status_code") as [c|];
    [destruct (eq_int c 20000)|]; reflexivity.
Qed.

(** With a session set and a free slot, a call answered with body [resp]
    ends as the envelope check says; the client is left as it was and
    exactly one call has been handed to the session. *)
Lemma make_request_answered : forall method endpoint data self w sess resp,
  session self = Some sess -> rate_limiter self <> 0 -> answers w resp ->
  exists w',
    _make_request method endpoint data (self, w)
    = (envelope_outcome resp, (self, w'))
    /\ provider w' = provider w
    /\ requests w'
       = (requests w
          ++ [if String.eqb method "POST"
              then request_of self sess "POST" (lstrip_slash endpoint) data
              else request_of self sess "GET" (lstrip_slash endpoint) None])%list
    /\ exists l, log w' = (log w ++ l)%list.
Proof.
  intros method endpoint data self w sess resp Hs Hr Ha.
  unfold _make_request, bind, self_session, self_base_url. rewrite Hs.
  unfold async_with_rate_limiter.
  destruct (rate_limiter self) as [|n] eqn:Hn; [congruence|].
  unfold try_except, bind, logger.
  destruct (String.eqb method "POST") eqn:Hm; unfold session_send;
    match goal with
    | |- context [provider ?w0 (length (requests ?w0)) ?r] =>
        destruct (Ha r) as [status Hst]; simpl in Hst |- *; rewrite Hst
    end;
    rewrite check_envelope_outcome;
    unfold envelope_outcome;
    destruct resp; simpl;
      try (eexists; rewrite (restore_rate_limiter _ _ Hn);
           split; [reflexivity|];
           split; [reflexivity|];
           split; [reflexivity|];
           simpl; rewrite <- ?app_assoc; eexists; reflexivity).
  all: destruct (eq_int (field entries "status_code") 20000); simpl;
    eexists; rewrite (restore_rate_limiter _ _ Hn);
    (split; [reflexivity|]);
    (split; [reflexivity|]);
    (split; [reflexivity|]);
    simpl; rewrite <- ?app_assoc; eexists; reflexivity.
Qed.

(** ** Parsing in [get_search_volume] *)

Section LocaleParsing.

Lemma search_volume_item_run : forall item acc self w,
  is_dict item = true ->
  search_volume_item item acc (self, w)
  = (Returns (acc ++ map record_of (filter has_both [item]))%list,
     (self, add_log w (map processed_record (filter has_both [item])))).
Proof.
  intros item acc self w Hd.
  destruct item; try discriminate. clear Hd.
  unfold search_volume_item, bind, eval, ret, logger. simpl.
  unfold has_both, has_field, dict_has, record_of, processed_record,
    get_field, field_or.
  destruct (dict_get entries "keyword") as [kw|] eqn:Hk; simpl;
    [destruct (dict_get entries "search_volume") as [sv|] eqn:Hv; simpl|];
    rewrite ?Hk, ?Hv, ?app_nil_r, ?add_log_nil; reflexivity.
Qed.

Lemma search_volume_items_run : forall items acc self w,
  forallb is_dict items = true ->
  for_each items search_volume_item acc (self, w)
  = (Returns (acc ++ map record_of (filter has_both items))%list,
     (self, add_log w (map processed_record (filter has_both items)))).
Proof.
  induction items as [|item items IH]; intros acc self w Hd.
  - simpl. unfold ret. now rewrite app_nil_r, add_log_nil.
  - simpl in Hd. apply andb_true_iff in Hd as [Hi Hd].
    cbn [for_each]. unfold bind at 1.
    rewrite (search_volume_item_run _ acc self w Hi).
    rewrite (IH _ _ _ Hd). rewrite add_log_app, <- app_assoc.
    simpl. destruct (has_both item); reflexivity.
Qed.

Lemma search_volume_task_run : forall t acc self w,
  locale_task t = true ->
  search_volume_task t acc (self, w)
  = (Returns (acc ++ flat_map records_of_task (filter succeeds [t]))%list,
     (self, add_log w (task_log t))).
Proof.
  intros t acc self w Ht.
  unfold locale_task in Ht. apply andb_true_iff in Ht as [Hd Hs].
  destruct t; try discriminate. clear Hd.
  unfold search_volume_task, bind, eval, ret, logger. simpl.
  unfold task_log, succeeds, ne_int, field in *.
  destruct (dict_get entries "status_code") as [c|]; simpl in *.
  - destruct (eq_int c 20000); simpl in *.
    + unfold flat_task, objects_under, records_of_task, list_under in *.
      destruct (dict_get entries "result") as [r|]; simpl.
      * destruct r; try discriminate. simpl.
        rewrite (search_volume_items_run _ _ _ _ Hs).
        rewrite app_nil_r. reflexivity.
      * unfold ret. rewrite add_log_nil, app_nil_r. reflexivity.
    + rewrite add_log_app, app_nil_r. reflexivity.
  - rewrite add_log_app, app_nil_r. reflexivity.
Qed.

Lemma search_volume_tasks_run : forall tasks acc self w,
  forallb locale_task tasks = true ->
  for_each tasks search_volume_task acc (self, w)
  = (Returns (acc ++ flat_map records_of_task (filter succeeds tasks))%list,
     (self, add_log w (flat_map task_log tasks))).
Proof.
  induction tasks as [|t tasks IH]; intros acc self w Hs.
  - simpl. unfold ret. now rewrite app_nil_r, add_log_nil.
  - simpl in Hs. apply andb_true_iff in Hs as [Ht Hs].
    cbn [for_each]. unfold bind at 1.
    rewrite (search_volume_task_run _ acc self w Ht).
    rewrite (IH _ _ _ Hs). rewrite add_log_app, <- app_assoc.
    simpl. destruct (succeeds t); simpl;
      rewrite ?app_nil_r, ?flat_map_app; reflexivity.
Qed.

Lemma parse_search_volume_run : forall resp self w,
  objects_under "tasks" resp = true ->
  forallb locale_task (list_under "tasks" resp) = true ->
  parse_search_volume resp (self, w)
  = (Returns (flat_map records_of_task
                (filter succeeds (list_under "tasks" resp))),
     (self, add_log w (flat_map task_log (list_under "tasks" resp)))).
Proof.
  intros resp self w Ho Hs.
  destruct resp; try discriminate.
  unfold parse_search_volume, bind, eval, ret. simpl.
  unfold objects_under, list_under in *.
  destruct (dict_get entries "tasks") as [ts|]; simpl.
  - destruct ts; try discriminate. simpl.
    now rewrite (search_volume_tasks_run _ _ _ _ Hs).
  - unfold ret. now rewrite add_log_nil.
Qed.

End LocaleParsing.

(** ** Argument validation *)

Section Validation.

Lemma check_keyword_lengths_ok : forall keywords st,
  forallb (fun k => Nat.leb 3 (String.length k)) keywords = true ->
  check_keyword_lengths keywords st = (Returns tt, st).
Proof.
  unfold check_keyword_lengths.
  induction keywords as [|k ks IH]; intros st H; [reflexivity|].
  cbn [forallb] in H. apply andb_true_iff in H as [Hk Hks].
  cbn [for_each]. unfold bind.
  rewrite Nat.ltb_antisym, Hk. cbn [negb]. unfold ret. now apply IH.
Qed.

Lemma check_keyword_lengths_short : forall keywords st,
  forallb (fun k => Nat.leb 3 (String.length k)) keywords = false ->
  exists msg, check_keyword_lengths keywords st = (Raises (ValueError msg), st).
Proof.
  unfold check_keyword_lengths.
  induction keywords as [|k ks IH]; intros st H; [discriminate|].
  cbn [forallb] in H. cbn [for_each]. unfold bind.
  rewrite Nat.ltb_antisym.
  destruct (Nat.leb 3 (String.length k)); cbn [negb andb] in *.
  - unfold ret. now apply IH.
  - eexists. reflexivity.
Qed.

Lemma get_search_volume_valid :
  forall keywords ln lc lgn lgc uc tag st,
    valid_search_volume keywords ln lc lgn lgc = true ->
    get_search_volume keywords ln lc lgn lgc uc tag st
    = bind (_make_request "POST" "keywords_data/google/search_volume/live"
              (Some (search_volume_payload keywords ln lc lgn lgc uc tag)))
           parse_search_volume st.
Proof.
  intros keywords ln lc lgn lgc uc tag st H.
  unfold valid_search_volume, supplied, supplied_str in H.
  repeat (apply andb_true_iff in H as [H ?]).
  unfold get_search_volume.
  rewrite Nat.ltb_antisym.
  destruct (is_empty keywords); [discriminate|].
  destruct (Nat.leb (length keywords) 1000); [|discriminate].
  destruct (truthy_str ln || truthy_int lc); [|discriminate].
  destruct (truthy_str lgn || truthy_str lgc); [|discriminate].
  reflexivity.
Qed.

Lemma get_search_volume_invalid :
  forall keywords ln lc lgn lgc uc tag st,
    valid_search_volume keywords ln lc lgn lgc = false ->
    exists msg,
      get_search_volume keywords ln lc lgn lgc uc tag st
      = (Raises (ValueError msg), st).
Proof.
  intros keywords ln lc lgn lgc uc tag st H.
  unfold valid_search_volume, supplied, supplied_str in H.
  unfold get_search_volume.
  rewrite Nat.ltb_antisym.
  destruct (is_empty keywords); [eexists; reflexivity|].
  destruct (Nat.leb (length keywords) 1000); [|eexists; reflexivity].
  destruct (truthy_str ln || truthy_int lc); [|eexists; reflexivity].
  destruct (truthy_str lgn || truthy_str lgc); [discriminate|].
  eexists; reflexivity.
Qed.

Lemma get_global_search_volume_valid : forall keywords tag st,
  valid_global keywords = true ->
  get_global_search_volume keywords tag st
  = bind (_make_request "POST"
            "keywords_data/clickstream_data/search_volume_normalized/live"
            (Some (global_payload keywords tag)))
         (parse_clickstream (fun _ => global_item)) st.
Proof.
  intros keywords tag st H. unfold valid_global in H.
  repeat (apply andb_true_iff in H as [H ?]).
  unfold get_global_search_volume.
  rewrite Nat.ltb_antisym.
  destruct (is_empty keywords); [discriminate|].
  destruct (Nat.leb (length keywords) 1000); [|discriminate].
  simpl. unfold bind at 1.
  now rewrite check_keyword_lengths_ok.
Qed.

Lemma get_global_search_volume_invalid : forall keywords tag st,
  valid_global keywords = false ->
  exists msg,
    get_global_search_volume keywords tag st = (Raises (ValueError msg), st).
Proof.
  intros keywords tag st H. unfold valid_global in H.
  unfold get_global_search_volume.
  rewrite Nat.ltb_antisym.
  destruct (is_empty keywords); [eexists; reflexivity|].
  destruct (Nat.leb (length keywords) 1000); [|eexists; reflexivity].
  simpl in H.
  destruct (check_keyword_lengths_short keywords st H) as [msg Hm].
  exists msg. simpl. unfold bind at 1. now rewrite Hm.
Qed.

Lemma get_search_volume_by_location_valid :
  forall keywords ln lc tag st,
    valid_by_location keywords ln lc = true ->
    get_search_volume_by_location keywords ln lc tag st
    = bind (_make_request "POST"
              "keywords_data/clickstream_data/search_volume_by_location/live"
              (Some (by_location_payload keywords ln lc tag)))
           (parse_clickstream by_location_item) st.
Proof.
  intros keywords ln lc tag st H. unfold valid_by_location, supplied in H.
  apply andb_true_iff in H as [H ?].
  unfold get_search_volume_by_location.
  destruct (is_empty keywords); [discriminate|].
  destruct (truthy_str ln || truthy_int lc); [|discriminate].
  reflexivity.
Qed.

Lemma get_search_volume_by_location_invalid :
  forall keywords ln lc tag st,
    valid_by_location keywords ln lc = false ->
    exists msg,
      get_search_volume_by_location keywords ln lc tag st
      = (Raises (ValueError msg), st).
Proof.
  intros keywords ln lc tag st H. unfold valid_by_location, supplied in H.
  unfold get_search_volume_by_location.
  destruct (is_empty keywords); [eexists; reflexivity|].
  destruct (truthy_str ln || truthy_int lc); [discriminate|].
  eexists; reflexivity.
Qed.

End Validation.

(** ** A successful envelope *)

Lemma envelope_outcome_succeeds : forall resp,
  succeeds resp = true -> envelope_outcome resp = Returns resp.
Proof.
  intros resp H. destruct resp; try discriminate.
  unfold envelope_outcome. simpl in H. now rewrite H.
Qed.

Lemma forallb_and_split : forall (f g : json -> bool) l,
  forallb (fun t => f t && g t) l = true ->
  forallb f l = true /\ forallb g l = true.
Proof.
  induction l as [|x l IH]; intros H; [now split|].
  simpl in H. apply andb_true_iff in H as [Hx Hl].
  apply andb_true_iff in Hx as [Hf Hg]. destruct (IH Hl) as [IHf IHg].
  simpl. now rewrite Hf, Hg, IHf, IHg.
Qed.

Lemma succeeding_flat_tasks_are_locale_tasks : forall l,
  forallb (fun t => succeeds t && flat_task t) l = true ->
  forallb locale_task l = true.
Proof.
  induction l as [|x l IH]; intros H; [reflexivity|].
  simpl in H. apply andb_true_iff in H as [Hx Hl].
  apply andb_true_iff in Hx as [Hs Hf].
  simpl. rewrite (IH Hl), andb_true_r.
  unfold locale_task. rewrite Hs, Hf.
  destruct x; try discriminate. reflexivity.
Qed.

(** The state a valid [get_search_volume] call leaves behind when the
    provider answers with a well-formed, successful envelope. *)
Lemma get_search_volume_run :
  forall self w sess resp keywords ln lc lgn lgc uc tag,
    session self = Some sess ->
    rate_limiter self <> 0 ->
    valid_search_volume keywords ln lc lgn lgc = true ->
    answers w resp ->
    succeeds resp = true ->
    objects_under "tasks" resp = true ->
    forallb locale_task (list_under "tasks" resp) = true ->
    exists w',
      get_search_volume keywords ln lc lgn lgc uc tag (self, w)
      = (Returns (flat_map records_of_task
                    (filter succeeds (list_under "tasks" resp))),
         (self, add_log w' (flat_map task_log (list_under "tasks" resp))))
      /\ requests w'
         = (requests w
            ++ [request_of self sess "POST"
                  "keywords_data/google/search_volume/live"
                  (Some (search_volume_payload keywords ln lc lgn lgc
                           uc tag))])%list.
Proof.
  intros self w sess resp keywords ln lc lgn lgc uc tag Hs Hr Hv Ha Hok Ho Ht.
  rewrite get_search_volume_valid by assumption.
  destruct (make_request_answered "POST"
              "keywords_data/google/search_volume/live"
              (Some (search_volume_payload keywords ln lc lgn lgc uc tag))
              self w sess resp Hs Hr Ha) as (w' & Heq & _ & Hreq & _).
  exists w'. split; [|exact Hreq].
  unfold bind. rewrite Heq, (envelope_outcome_succeeds _ Hok).
  now apply parse_search_volume_run.
Qed.

(** ** Claims about [get_search_volume] *)

(** C1.  When the provider answers a valid [get_search_volume] call with an
    envelope whose status code is 20000 and whose tasks all succeed (each
    task an object whose [result] is a list of objects), the call returns,
    task by task and item by item in the order received, exactly one
    [SearchVolumeResult] for every item that has both a [keyword] and a
    [search_volume] field, and nothing for the other items.  The record holds
    the item's own values: [keyword] and [search_volume] as found, and
    [monthly_searches] the very list found under that key ([record_of]), in
    the order received. *)
Theorem get_search_volume_one_record_per_complete_item :
  forall self w sess resp keywords ln lc lgn lgc uc tag,
    session self = Some sess ->
    rate_limiter self <> 0 ->
    valid_search_volume keywords ln lc lgn lgc = true ->
    answers w resp ->
    succeeds resp = true ->
    objects_under "tasks" resp = true ->
    forallb (fun t => succeeds t && flat_task t) (list_under "tasks" resp)
    = true ->
    outcome_of (get_search_volume keywords ln lc lgn lgc uc tag (self, w))
    = Returns
        (flat_map (fun t => map record_of
                              (filter has_both (list_under "result" t)))
                  (list_under "tasks" resp)).
Proof.
  intros self w sess resp keywords ln lc lgn lgc uc tag Hs Hr Hv Ha Hok Ho Ht.
  destruct (get_search_volume_run self w sess resp keywords ln lc lgn lgc
              uc tag Hs Hr Hv Ha Hok Ho
              (succeeding_flat_tasks_are_locale_tasks _ Ht))
    as (w' & Heq & _).
  rewrite Heq. unfold outcome_of. simpl.
  destruct (forallb_and_split _ _ _ Ht) as [Hall _].
  rewrite (forallb_filter_id _ _ Hall). reflexivity.
Qed.

Lemma get_search_volume_one_record_per_complete_item_witness :
  outcome_of
    (get_search_volume ["running shoes"; "trail shoes"; "sandals"]
       (Some "United States") None (Some "English") None true None
       (Fixture.entered,
        Fixture.world
          (Fixture.always
             (Fixture.envelope
                [Fixture.task_ok [Fixture.item_a; Fixture.item_partial;
                                  Fixture.item_b]]))))
  = Returns [record_of Fixture.item_a; record_of Fixture.item_b].
Proof.
  apply (get_search_volume_one_record_per_complete_item
           Fixture.entered _ {| closed := false |}
           (Fixture.envelope
              [Fixture.task_ok [Fixture.item_a; Fixture.item_partial;
                                Fixture.item_b]])).
  - reflexivity.
  - simpl. discriminate.
  - reflexivity.
  - intros req. exists 200%Z. reflexivity.
  - reflexivity.
  - reflexivity.
  - reflexivity.
Defined.

(** The months of a record are the list the provider sent, in its order. *)
Example monthly_searches_keep_provider_order :
  monthly_searches (record_of Fixture.item_a)
  = JList [Fixture.month 2025 3 6000; Fixture.month 2025 1 5000;
           Fixture.month 2025 2 5200].
Proof. reflexivity. Qed.

(** C6.  When the envelope succeeds but some tasks carry a status code other
    than 20000, a valid [get_search_volume] call does not raise: it returns
    exactly the records of the succeeding tasks, and for every failing task
    the log has received its two error records. *)
Theorem get_search_volume_skips_failing_tasks :
  forall self w sess resp keywords ln lc lgn lgc uc tag,
    session self = Some sess ->
    rate_limiter self <> 0 ->
    valid_search_volume keywords ln lc lgn lgc = true ->
    answers w resp ->
    succeeds resp = true ->
    objects_under "tasks" resp = true ->
    forallb locale_task (list_under "tasks" resp) = true ->
    outcome_of (get_search_volume keywords ln lc lgn lgc uc tag (self, w))
    = Returns (flat_map records_of_task
                 (filter succeeds (list_under "tasks" resp)))
    /\ forall t, In t (list_under "tasks" resp) -> succeeds t = false ->
         incl (task_error_records t)
              (log (world_of (get_search_volume keywords ln lc lgn lgc uc
                                tag (self, w)))).
Proof.
  intros self w sess resp keywords ln lc lgn lgc uc tag Hs Hr Hv Ha Hok Ho Ht.
  destruct (get_search_volume_run self w sess resp keywords ln lc lgn lgc
              uc tag Hs Hr Hv Ha Hok Ho Ht) as (w' & Heq & _).
  rewrite Heq. unfold outcome_of, world_of. simpl. split; [reflexivity|].
  intros t Hin Hfail r Hr'.
  apply in_or_app. right.
  apply in_flat_map. exists t. split; [exact Hin|].
  unfold task_log. now rewrite Hfail.
Qed.

Lemma get_search_volume_skips_failing_tasks_witness :
  let run :=
    get_search_volume ["running shoes"] None (Some 2840%Z) None (Some "en")
      true None
      (Fixture.entered,
       Fixture.world
         (Fixture.always
            (Fixture.envelope
               [Fixture.task_failed; Fixture.task_ok [Fixture.item_a]]))) in
  outcome_of run = Returns [record_of Fixture.item_a]
  /\ incl (task_error_records Fixture.task_failed) (log (world_of run)).
Proof.
  destruct (get_search_volume_skips_failing_tasks
              Fixture.entered
              (Fixture.world
                 (Fixture.always
                    (Fixture.envelope
                       [Fixture.task_failed;
                        Fixture.task_ok [Fixture.item_a]])))
              {| closed := false |}
              (Fixture.envelope
                 [Fixture.task_failed; Fixture.task_ok [Fixture.item_a]])
              ["running shoes"] None (Some 2840%Z) None (Some "en") true None
              eq_refl
              (fun H : 12 = 0 => O_S 11 (eq_sym H))
              eq_refl
              (fun req => ex_intro _ 200%Z eq_refl)
              eq_refl eq_refl eq_refl) as [Hout Hlog].
  split.
  - exact Hout.
  - apply Hlog; [left; reflexivity | reflexivity].
Defined.


(** ** Claims about argument validation *)

Lemma exists_short_keyword : forall keywords,
  Exists (fun k => String.length k < 3) keywords ->
  forallb (fun k => Nat.leb 3 (String.length k)) keywords = false.
Proof.
  induction 1 as [k ks Hk | k ks _ IH]; cbn [forallb].
  - apply Nat.leb_gt in Hk. now rewrite Hk.
  - rewrite IH. apply andb_false_r.
Qed.

(** C3.  [get_search_volume] called with an empty keyword list, with more
    than 1000 keywords, with neither [location_name] nor [location_code], or
    with neither [language_name] nor [language_code] (a field counts as
    missing when it is [None], and also when it is the empty string or [0],
    which the code's test treats alike) raises [ValueError] and leaves the
    client and the world untouched: no call reaches the session. *)
Theorem get_search_volume_rejects_invalid_arguments :
  forall keywords ln lc lgn lgc uc tag st,
    length keywords = 0 \/ 1000 < length keywords
    \/ supplied ln lc = false \/ supplied_str lgn lgc = false ->
    exists msg,
      get_search_volume keywords ln lc lgn lgc uc tag st
      = (Raises (ValueError msg), st).
Proof.
  intros keywords ln lc lgn lgc uc tag st H.
  apply get_search_volume_invalid.
  unfold valid_search_volume.
  destruct H as [H | [H | [H | H]]].
  - destruct keywords; [reflexivity | discriminate].
  - apply Nat.leb_gt in H. rewrite H. now rewrite andb_false_r.
  - rewrite H. now rewrite andb_false_r.
  - rewrite H. now rewrite andb_false_r.
Qed.

Lemma get_search_volume_rejects_invalid_arguments_witness :
  let st := (Fixture.entered, Fixture.world (Fixture.always JNull)) in
  (exists msg,
     get_search_volume [] (Some "United States") None (Some "English") None
       true None st = (Raises (ValueError msg), st))
  /\ (exists msg,
        get_search_volume (repeat "shoes" 1001) (Some "United States") None
          (Some "English") None true None st
        = (Raises (ValueError msg), st))
  /\ (exists msg,
        get_search_volume ["shoes"] None None (Some "English") None true None
          st = (Raises (ValueError msg), st))
  /\ (exists msg,
        get_search_volume ["shoes"] None (Some 2840%Z) None None true None st
        = (Raises (ValueError msg), st)).
Proof.
  intros st. repeat split.
  - apply get_search_volume_rejects_invalid_arguments. left. reflexivity.
  - apply get_search_volume_rejects_invalid_arguments. right. left.
    rewrite repeat_length. apply Nat.lt_succ_diag_r.
  - apply get_search_volume_rejects_invalid_arguments.
    right. right. left. reflexivity.
  - apply get_search_volume_rejects_invalid_arguments.
    right. right. right. reflexivity.
Defined.

(** C4.  [get_global_search_volume] called with an empty keyword list, or
    with a list in which some keyword has fewer than 3 characters, raises
    [ValueError] and leaves the client and the world untouched: it fails
    before any call reaches the session. *)
Theorem get_global_search_volume_rejects_short_keywords :
  forall keywords tag st,
    keywords = [] \/ Exists (fun k => String.length k < 3) keywords ->
    exists msg,
      get_global_search_volume keywords tag st = (Raises (ValueError msg), st).
Proof.
  intros keywords tag st H.
  apply get_global_search_volume_invalid.
  unfold valid_global.
  destruct H as [H | H].
  - subst keywords. reflexivity.
  - rewrite (exists_short_keyword _ H). apply andb_false_r.
Qed.

Lemma get_global_search_volume_rejects_short_keywords_witness :
  let st := (Fixture.entered, Fixture.world (Fixture.always JNull)) in
  (exists msg,
     get_global_search_volume [] None st = (Raises (ValueError msg), st))
  /\ (exists msg,
        get_global_search_volume ["running shoes"; "tv"; "sandals"] None st
        = (Raises (ValueError msg), st)).
Proof.
  intros st. split.
  - apply get_global_search_volume_rejects_short_keywords.
    left. reflexivity.
  - apply get_global_search_volume_rejects_short_keywords.
    right. apply Exists_cons_tl. apply Exists_cons_hd.
    simpl. apply Nat.lt_succ_diag_r.
Defined.

(** The message names the first keyword that is too short. *)
Example short_keyword_message :
  outcome_of (get_global_search_volume ["running shoes"; "tv"; "a"] None
                (Fixture.entered, Fixture.world (Fixture.always JNull)))
  = Raises (ValueError [Lit "Keyword 'tv' must be at least 3 characters"]).
Proof. reflexivity. Qed.

(** ** Claims about the envelope check *)

Lemma envelope_outcome_fails : forall d,
  eq_int (field d "status_code") 20000 = false ->
  envelope_outcome (JDict d) = Raises (provider_error d).
Proof.
  intros d H. unfold envelope_outcome. now rewrite H.
Qed.

(** A call whose request ends in an exception ends in that exception. *)
Lemma bind_make_request_raises :
  forall A method endpoint data self w sess d (k : json -> M A),
    session self = Some sess ->
    rate_limiter self <> 0 ->
    answers w (JDict d) ->
    eq_int (field d "status_code") 20000 = false ->
    outcome_of (bind (_make_request method endpoint data) k (self, w))
    = Raises (provider_error d).
Proof.
  intros A method endpoint data self w sess d k Hs Hr Ha Hc.
  destruct (make_request_answered method endpoint data self w sess (JDict d)
              Hs Hr Ha) as (w' & Heq & _).
  unfold bind. rewrite Heq, (envelope_outcome_fails _ Hc). reflexivity.
Qed.

(** C5.  When the provider's envelope is an object whose [status_code] is
    not 20000, each of the four query operations, called with valid
    arguments on a client that holds a session, raises the
    [DataForSEOError] built from the envelope's [status_code] and
    [status_message] ([provider_error]); none of them returns a result. *)
Theorem envelope_failure_raises_provider_error :
  forall self w sess d,
    session self = Some sess ->
    rate_limiter self <> 0 ->
    answers w (JDict d) ->
    eq_int (field d "status_code") 20000 = false ->
    outcome_of (get_locations_and_languages (self, w))
    = Raises (provider_error d)
    /\ (forall keywords ln lc lgn lgc uc tag,
          valid_search_volume keywords ln lc lgn lgc = true ->
          outcome_of (get_search_volume keywords ln lc lgn lgc uc tag
                        (self, w))
          = Raises (provider_error d))
    /\ (forall keywords tag,
          valid_global keywords = true ->
          outcome_of (get_global_search_volume keywords tag (self, w))
          = Raises (provider_error d))
    /\ (forall keywords ln lc tag,
          valid_by_location keywords ln lc = true ->
          outcome_of (get_search_volume_by_location keywords ln lc tag
                        (self, w))
          = Raises (provider_error d)).
Proof.
  intros self w sess d Hs Hr Ha Hc. repeat split.
  - unfold get_locations_and_languages.
    destruct (make_request_answered "GET"
                "keywords_data/clickstream_data/locations_and_languages"
                None self w sess (JDict d) Hs Hr Ha) as (w' & Heq & _).
    rewrite Heq, (envelope_outcome_fails _ Hc). reflexivity.
  - intros. rewrite get_search_volume_valid by assumption.
    now apply bind_make_request_raises with (sess := sess).
  - intros. rewrite get_global_search_volume_valid by assumption.
    now apply bind_make_request_raises with (sess := sess).
  - intros. rewrite get_search_volume_by_location_valid by assumption.
    now apply bind_make_request_raises with (sess := sess).
Qed.

Lemma envelope_failure_raises_provider_error_witness :
  let st := (Fixture.entered,
             Fixture.world (Fixture.always Fixture.envelope_failed)) in
  let e := DataForSEOError
             [Lit "API error "; Fmt (JInt 40100); Lit ": ";
              Fmt (JStr "You are not authorized.")] in
  outcome_of (get_locations_and_languages st) = Raises e
  /\ outcome_of (get_search_volume ["running shoes"] (Some "United States")
                   None (Some "English") None true None st) = Raises e
  /\ outcome_of (get_global_search_volume ["running shoes"] None st)
     = Raises e
  /\ outcome_of (get_search_volume_by_location ["tv"] None (Some 2840%Z)
                   (Some "batch-1") st) = Raises e.
Proof.
  intros st e.
  destruct (envelope_failure_raises_provider_error
              Fixture.entered
              (Fixture.world (Fixture.always Fixture.envelope_failed))
              {| closed := false |}
              [("status_code", JInt 40100);
               ("status_message", JStr "You are not authorized.");
               ("tasks", JNull)]
              eq_refl
              (fun H : 12 = 0 => O_S 11 (eq_sym H))
              (fun req => ex_intro _ 200%Z eq_refl)
              eq_refl) as (H1 & H2 & H3 & H4).
  split; [exact H1|].
  split; [apply H2; reflexivity|].
  split; [apply H3; reflexivity|].
  apply H4; reflexivity.
Defined.

(** ** Computations that only log *)

Ltac log_only_raise :=
  simpl;
  match goal with
  | |- log_only (raise ?e) =>
      exists (Raises e), []; split; [exact I|];
      intros; unfold raise; now rewrite add_log_nil
  end.

Section LogOnly.

Lemma log_only_ret : forall A (a : A), log_only (ret a).
Proof.
  intros. exists (Returns a), []. split; [exact I|].
  intros. unfold ret. now rewrite add_log_nil.
Qed.

Lemma log_only_logger : forall l m, log_only (logger l m).
Proof.
  intros. exists (Returns tt), [(l, m)]. split; [exact I|]. reflexivity.
Qed.

Lemma log_only_bind : forall A B (m : M A) (k : A -> M B),
  log_only m -> (forall a, log_only (k a)) -> log_only (bind m k).
Proof.
  intros A B m k (r & l & Hq & Hm) Hk.
  destruct r as [a | e |].
  - destruct (Hk a) as (r' & l' & Hq' & Hk').
    exists r', (l ++ l')%list. split; [exact Hq'|].
    intros. unfold bind. now rewrite Hm, Hk', add_log_app.
  - exists (Raises e), l. split; [exact Hq|].
    intros. unfold bind. now rewrite Hm.
  - destruct Hq.
Qed.

Lemma log_only_get : forall v k d, log_only (eval (PyOps.get v k d)).
Proof.
  intros. destruct v; simpl; try apply log_only_ret;
    log_only_raise.
Qed.

Lemma log_only_iter : forall v, log_only (eval (PyOps.iter v)).
Proof.
  intros. destruct v; simpl; try apply log_only_ret;
    log_only_raise.
Qed.

Lemma log_only_contains : forall k v, log_only (eval (PyOps.contains k v)).
Proof.
  intros. destruct v; simpl; try apply log_only_ret;
    log_only_raise.
Qed.

Lemma log_only_getitem : forall v k, log_only (eval (PyOps.getitem v k)).
Proof.
  intros. destruct v; try log_only_raise.
  simpl. destruct (dict_get entries k); [apply log_only_ret|].
  log_only_raise.
Qed.

Lemma log_only_for_each : forall A B (body : A -> B -> M B) xs acc,
  (forall x b, log_only (body x b)) -> log_only (for_each xs body acc).
Proof.
  intros A B body xs. induction xs as [|x xs IH]; intros acc Hb.
  - apply log_only_ret.
  - cbn [for_each]. apply log_only_bind; [apply Hb|].
    intros b. now apply IH.
Qed.

End LogOnly.

Create HintDb logonly.

#[local] Hint Resolve log_only_ret log_only_logger log_only_get log_only_iter
  log_only_contains log_only_getitem : logonly.

Ltac log_only_steps :=
  repeat first
    [ apply log_only_bind; [| intros ]
    | apply log_only_for_each; intros
    | solve [ auto with logonly ]
    | match goal with
      | |- log_only (if ?b then _ else _) => destruct b
      end ].

Lemma log_only_parse_search_volume : forall resp,
  log_only (parse_search_volume resp).
Proof.
  intros. unfold parse_search_volume, search_volume_task, search_volume_item.
  log_only_steps.
Qed.

Lemma log_only_parse_clickstream :
  forall R (body : json -> json -> list R -> M (list R)) resp,
    (forall result item acc, log_only (body result item acc)) ->
    log_only (parse_clickstream body resp).
Proof.
  intros R body resp Hb.
  unfold parse_clickstream, clickstream_task, nested_items.
  log_only_steps.
Qed.

Lemma log_only_global_item : forall item acc, log_only (global_item item acc).
Proof. intros. unfold global_item. log_only_steps. Qed.

Lemma log_only_by_location_item : forall result item acc,
  log_only (by_location_item result item acc).
Proof. intros. unfold by_location_item. log_only_steps. Qed.

(** ** One request, then parsing *)

(** With a session set and a free slot, [_make_request] hands exactly one
    call to the session and ends as the answer to that call dictates. *)
Lemma make_request_sent : forall method endpoint data self w sess,
  session self = Some sess -> rate_limiter self <> 0 ->
  exists w',
    _make_request method endpoint data (self, w)
    = (request_outcome
         (provider w (length (requests w))
            (sent_request self sess method endpoint data)),
       (self, w'))
    /\ provider w' = provider w
    /\ requests w'
       = (requests w ++ [sent_request self sess method endpoint data])%list.
Proof.
  intros method endpoint data self w sess Hs Hr.
  unfold _make_request, bind, self_session, self_base_url. rewrite Hs.
  unfold async_with_rate_limiter.
  destruct (rate_limiter self) as [|n] eqn:Hn; [congruence|].
  unfold try_except, bind, logger, sent_request, request_of.
  destruct (String.eqb method "POST") eqn:Hm; unfold session_send; simpl;
    match goal with
    | |- context [provider w (length (requests w)) ?r] =>
        destruct (provider w (length (requests w)) r)
          as [[m|n' m] | status [[m|n' m] | resp]]
    end; simpl;
    try rewrite check_envelope_outcome;
    try (unfold envelope_outcome;
         destruct resp; simpl;
         try destruct (eq_int (field entries "status_code") 20000); simpl);
    eexists; rewrite (restore_rate_limiter _ _ Hn);
    (split; [reflexivity|]); split; reflexivity.
Qed.

Lemma request_outcome_not_value_error : forall a msg,
  request_outcome a <> Raises (ValueError msg).
Proof.
  intros a msg.
  destruct a as [[m|n m] | status [[m|n m] | resp]]; simpl; try discriminate.
  unfold envelope_outcome. destruct resp; try discriminate.
  unfold provider_error.
  destruct (eq_int (field entries "status_code") 20000); discriminate.
Qed.

Lemma request_outcome_not_guard : forall a,
  request_outcome a <> Raises not_initialized.
Proof.
  intros a.
  destruct a as [[m|n m] | status [[m|n m] | resp]]; simpl; try discriminate.
  unfold envelope_outcome. destruct resp; try discriminate.
  unfold provider_error.
  destruct (eq_int (field entries "status_code") 20000); discriminate.
Qed.

Lemma request_outcome_never_blocks : forall a, request_outcome a <> Blocks.
Proof.
  intros a.
  destruct a as [[m|n m] | status [[m|n m] | resp]]; simpl; try discriminate.
  unfold envelope_outcome. destruct resp; try discriminate.
  destruct (eq_int (field entries "status_code") 20000); discriminate.
Qed.

Lemma lookup_outcome_not_value_error : forall A (r : outcome A) msg,
  lookup_outcome r -> r <> Raises (ValueError msg).
Proof. intros A r msg H E. subst r. exact H. Qed.

Lemma lookup_outcome_not_guard : forall A (r : outcome A),
  lookup_outcome r -> r <> Raises not_initialized.
Proof. intros A r H E. subst r. exact H. Qed.

Section Query.

Variables (A : Type) (method endpoint : string) (data : option json).
Variable k : json -> M A.
Hypothesis k_logs : forall resp, log_only (k resp).

Local Abbreviation query := (bind (_make_request method endpoint data) k).

(** A query through a set session with a free slot: one call is handed to
    the session, the client is as before, and the outcome is neither a
    [ValueError] nor the guard's error. *)
Lemma query_sent : forall self w sess,
  session self = Some sess -> rate_limiter self <> 0 ->
  exists r w',
    query (self, w) = (r, (self, w'))
    /\ provider w' = provider w
    /\ requests w'
       = (requests w ++ [sent_request self sess method endpoint data])%list
    /\ (forall msg, r <> Raises (ValueError msg))
    /\ r <> Raises not_initialized.
Proof.
  intros self w sess Hs Hr.
  destruct (make_request_sent method endpoint data self w sess Hs Hr)
    as (w' & Heq & Hp & Hq).
  unfold bind. rewrite Heq.
  pose proof (request_outcome_not_value_error
                (provider w (length (requests w))
                   (sent_request self sess method endpoint data))) as Hv.
  pose proof (request_outcome_not_guard
                (provider w (length (requests w))
                   (sent_request self sess method endpoint data))) as Hg.
  pose proof (request_outcome_never_blocks
                (provider w (length (requests w))
                   (sent_request self sess method endpoint data))) as Hb.
  destruct (request_outcome _) as [resp | e |].
  - destruct (k_logs resp) as (r & l & Hl & Hk). rewrite Hk.
    exists r, (add_log w' l). repeat split; try assumption.
    + intros msg. now apply lookup_outcome_not_value_error.
    + now apply lookup_outcome_not_guard.
  - exists (Raises e), w'. repeat split; try assumption.
    + intros msg E. apply (Hv msg). now inversion E.
    + intros E. apply Hg. now inversion E.
  - congruence.
Qed.

(** Whatever the client's state, a query leaves the client as it was and
    hands at most one call to the session. *)
Lemma query_effect : forall self w,
  exists r w',
    query (self, w) = (r, (self, w'))
    /\ provider w' = provider w
    /\ (length (requests w') = length (requests w)
        \/ length (requests w') = S (length (requests w))).
Proof.
  intros self w.
  destruct (session self) as [sess|] eqn:Hs.
  - destruct (rate_limiter self) as [|n] eqn:Hn.
    + exists Blocks, w. unfold bind.
      rewrite (make_request_blocked _ _ _ _ _ _ Hs Hn). auto.
    + assert (Hr : rate_limiter self <> 0) by congruence.
      destruct (query_sent self w sess Hs Hr) as (r & w' & Hq & Hp & Hreq & _).
      exists r, w'. repeat split; try assumption.
      right. rewrite Hreq, length_app. simpl. apply Nat.add_1_r.
  - exists (Raises not_initialized), w. unfold bind.
    rewrite (make_request_unacquired _ _ _ _ _ Hs). auto.
Qed.

(** The outcome of a query depends on the world only through the answer to
    the call it makes. *)
Lemma query_outcome_by_answer : forall self w1 w2,
  (forall req, provider w1 (length (requests w1)) req
               = provider w2 (length (requests w2)) req) ->
  outcome_of (query (self, w1)) = outcome_of (query (self, w2)).
Proof.
  intros self w1 w2 Hsame.
  destruct (session self) as [sess|] eqn:Hs.
  - destruct (rate_limiter self) as [|n] eqn:Hn.
    + unfold bind.
      now rewrite !(make_request_blocked _ _ _ _ _ _ Hs Hn).
    + assert (Hr : rate_limiter self <> 0) by congruence.
      destruct (make_request_sent method endpoint data self w1 sess Hs Hr)
        as (w1' & Heq1 & _).
      destruct (make_request_sent method endpoint data self w2 sess Hs Hr)
        as (w2' & Heq2 & _).
      rewrite Hsame in Heq1.
      unfold bind. rewrite Heq1, Heq2. clear Heq1 Heq2.
      destruct (request_outcome _) as [resp | e |]; try reflexivity.
      destruct (k_logs resp) as (r & l & _ & Hk).
      cbv beta iota. now rewrite !Hk.
  - unfold bind.
    now rewrite !(make_request_unacquired _ _ _ _ _ Hs).
Qed.

(** Asked twice in a row of a provider that answers both calls alike, a
    query ends twice alike, and the client is as before. *)
Lemma query_twice : forall self w,
  (forall req, provider w (length (requests w)) req
               = provider w (S (length (requests w))) req) ->
  client_of (query (self, w)) = self
  /\ outcome_of (query (snd (query (self, w))))
     = outcome_of (query (self, w)).
Proof.
  intros self w Hfix.
  destruct (query_effect self w) as (r & w' & Heq & Hp & Hlen).
  rewrite Heq. unfold client_of. simpl. split; [reflexivity|].
  change r with (outcome_of (r, (self, w'))). rewrite <- Heq.
  apply query_outcome_by_answer.
  intros req. rewrite Hp.
  destruct Hlen as [Hl | Hl]; rewrite Hl; [reflexivity|].
  symmetry. apply Hfix.
Qed.

End Query.

Lemma bind_ret_r : forall A (m : M A) st, bind m ret st = m st.
Proof.
  intros A m st. unfold bind, ret.
  destruct (m st) as [[a | e |] st']; reflexivity.
Qed.

(** ** Claims about the request payload *)

Lemma search_volume_payload_object :
  forall keywords ln lc lgn lgc uc tag,
    supplied ln lc = true -> supplied_str lgn lgc = true ->
    search_volume_payload keywords ln lc lgn lgc uc tag
    = JList [JDict (request_object keywords ln lc lgn lgc uc tag)].
Proof.
  intros keywords ln lc lgn lgc uc tag Hl Hg.
  unfold supplied, supplied_str in *.
  unfold search_volume_payload, request_object, locale_field,
    language_field, tag_field.
  destruct (truthy_str ln); simpl in Hl; [|rewrite Hl];
    (destruct (truthy_str lgn); simpl in Hg; [|rewrite Hg]);
    destruct (truthy_str tag); reflexivity.
Qed.

Lemma valid_search_volume_supplied : forall keywords ln lc lgn lgc,
  valid_search_volume keywords ln lc lgn lgc = true ->
  supplied ln lc = true /\ supplied_str lgn lgc = true.
Proof.
  intros keywords ln lc lgn lgc H. unfold valid_search_volume in H.
  repeat (apply andb_true_iff in H as [H ?]). now split.
Qed.

(** C7.  A valid [get_search_volume] call on a client with a session and a
    free slot hands exactly one POST to the session.  Its payload is a list
    with one object; the object holds [keywords] and [use_clickstream];
    [location_name] when a name was supplied, and otherwise [location_code],
    never both, so the name wins when both are given; the same for
    [language_name] over [language_code]; and [tag] exactly when a tag was
    supplied; nothing else. *)
Theorem get_search_volume_sends_one_request_object :
  forall self w sess keywords ln lc lgn lgc uc tag,
    session self = Some sess ->
    rate_limiter self <> 0 ->
    valid_search_volume keywords ln lc lgn lgc = true ->
    let obj := request_object keywords ln lc lgn lgc uc tag in
    requests (world_of (get_search_volume keywords ln lc lgn lgc uc tag
                          (self, w)))
    = (requests w
       ++ [request_of self sess "POST"
             "keywords_data/google/search_volume/live"
             (Some (JList [JDict obj]))])%list
    /\ dict_get obj "keywords" = Some (JList (map JStr keywords))
    /\ dict_get obj "use_clickstream" = Some (JBool uc)
    /\ (truthy_str ln = true ->
        dict_get obj "location_name" = Some (str_value ln)
        /\ dict_get obj "location_code" = None)
    /\ (truthy_str ln = false ->
        dict_get obj "location_name" = None
        /\ dict_get obj "location_code" = Some (int_value lc))
    /\ (truthy_str lgn = true ->
        dict_get obj "language_name" = Some (str_value lgn)
        /\ dict_get obj "language_code" = None)
    /\ (truthy_str lgn = false ->
        dict_get obj "language_name" = None
        /\ dict_get obj "language_code" = Some (str_value lgc))
    /\ dict_get obj "tag"
       = (if truthy_str tag then Some (str_value tag) else None)
    /\ length obj = (if truthy_str tag then 5 else 4).
Proof.
  intros self w sess keywords ln lc lgn lgc uc tag Hs Hr Hv obj.
  split.
  - rewrite get_search_volume_valid by assumption.
    destruct (valid_search_volume_supplied _ _ _ _ _ Hv) as [Hl Hg].
    destruct (query_sent _ "POST" "keywords_data/google/search_volume/live"
                (Some (search_volume_payload keywords ln lc lgn lgc uc tag))
                parse_search_volume log_only_parse_search_volume
                self w sess Hs Hr) as (r & w' & Heq & _ & Hreq & _).
    rewrite Heq. unfold world_of. simpl. rewrite Hreq.
    rewrite (search_volume_payload_object _ _ _ _ _ _ _ Hl Hg).
    reflexivity.
  - subst obj.
    unfold request_object, locale_field, language_field, tag_field.
    destruct (truthy_str ln), (truthy_str lgn), (truthy_str tag); simpl;
      repeat split; intros; try discriminate; reflexivity.
Qed.

Lemma get_search_volume_sends_one_request_object_witness :
  requests
    (world_of
       (get_search_volume ["running shoes"; "tv"] (Some "United States")
          (Some 2840%Z) None (Some "en") false (Some "batch-7")
          (Fixture.entered, Fixture.world (Fixture.always JNull))))
  = [{| via := {| closed := false |};
        http_method := "POST";
        url := "https://api.dataforseo.com/v3/keywords_data/google/search_volume/live";
        payload :=
          Some (JList
                  [JDict [("keywords",
                           JList [JStr "running shoes"; JStr "tv"]);
                          ("use_clickstream", JBool false);
                          ("location_name", JStr "United States");
                          ("language_code", JStr "en");
                          ("tag", JStr "batch-7")]]) |}].
Proof.
  exact (proj1 (get_search_volume_sends_one_request_object
                  Fixture.entered
                  (Fixture.world (Fixture.always JNull))
                  {| closed := false |}
                  ["running shoes"; "tv"] (Some "United States")
                  (Some 2840%Z) None (Some "en") false (Some "batch-7")
                  eq_refl
                  (fun H : 12 = 0 => O_S 11 (eq_sym H))
                  eq_refl)).
Defined.

(** C8.  [get_search_volume_by_location] has no check on the length of the
    keywords.  On a client with a session and a free slot, every call with
    a non-empty keyword list and a supplied location field passes validation
    and hands one POST, carrying the keywords as given, to the session,
    however short the keywords are; and the call raises [ValueError] exactly
    when the list is empty or the location field is missing. *)
Theorem get_search_volume_by_location_accepts_short_keywords :
  forall self w sess keywords ln lc tag,
    session self = Some sess ->
    rate_limiter self <> 0 ->
    let run := get_search_volume_by_location keywords ln lc tag (self, w) in
    (keywords <> [] -> supplied ln lc = true ->
     requests (world_of run)
     = (requests w
        ++ [request_of self sess "POST"
              "keywords_data/clickstream_data/search_volume_by_location/live"
              (Some (by_location_payload keywords ln lc tag))])%list
     /\ forall msg, outcome_of run <> Raises (ValueError msg))
    /\ ((exists msg, outcome_of run = Raises (ValueError msg))
        <-> keywords = [] \/ supplied ln lc = false).
Proof.
  intros self w sess keywords ln lc tag Hs Hr run.
  assert (Hvalid : valid_by_location keywords ln lc = true ->
            requests (world_of run)
            = (requests w
               ++ [request_of self sess "POST"
                     "keywords_data/clickstream_data/search_volume_by_location/live"
                     (Some (by_location_payload keywords ln lc tag))])%list
            /\ forall msg, outcome_of run <> Raises (ValueError msg)).
  { intros Hv. subst run.
    rewrite get_search_volume_by_location_valid by assumption.
    destruct (query_sent _ "POST"
                "keywords_data/clickstream_data/search_volume_by_location/live"
                (Some (by_location_payload keywords ln lc tag))
                (parse_clickstream by_location_item)
                (fun resp => log_only_parse_clickstream _ by_location_item
                               resp log_only_by_location_item)
                self w sess Hs Hr) as (r & w' & Heq & _ & Hreq & Hne & _).
    rewrite Heq. unfold world_of, outcome_of. simpl. split.
    - rewrite Hreq. reflexivity.
    - exact Hne. }
  split.
  - intros Hk Hl. apply Hvalid. unfold valid_by_location. rewrite Hl.
    destruct keywords; [congruence | reflexivity].
  - split.
    + intros [msg Hmsg].
      destruct (valid_by_location keywords ln lc) eqn:Hv.
      * destruct (Hvalid eq_refl) as [_ Hne]. now elim (Hne msg).
      * unfold valid_by_location in Hv.
        destruct keywords; [now left|]. simpl in Hv. now right.
    + intros H.
      assert (Hv : valid_by_location keywords ln lc = false).
      { unfold valid_by_location. destruct H as [H | H].
        - subst keywords. reflexivity.
        - rewrite H. apply andb_false_r. }
      destruct (get_search_volume_by_location_invalid keywords ln lc tag
                  (self, w) Hv) as [msg Hmsg].
      exists msg. subst run. now rewrite Hmsg.
Qed.

Lemma get_search_volume_by_location_accepts_short_keywords_witness :
  let run := get_search_volume_by_location ["tv"; "a"] None (Some 2840%Z)
               None
               (Fixture.entered, Fixture.world (Fixture.always JNull)) in
  requests (world_of run)
  = [{| via := {| closed := false |};
        http_method := "POST";
        url := "https://api.dataforseo.com/v3/keywords_data/clickstream_data/search_volume_by_location/live";
        payload :=
          Some (JList [JDict [("keywords", JList [JStr "tv"; JStr "a"]);
                              ("location_code", JInt 2840)]]) |}]
  /\ forall msg, outcome_of run <> Raises (ValueError msg).
Proof.
  apply (proj1 (get_search_volume_by_location_accepts_short_keywords
                  Fixture.entered
                  (Fixture.world (Fixture.always JNull))
                  {| closed := false |}
                  ["tv"; "a"] None (Some 2840%Z) None
                  eq_refl
                  (fun H : 12 = 0 => O_S 11 (eq_sym H)))).
  - discriminate.
  - reflexivity.
Defined.

(** ** Calling a method twice *)

Lemma same_twice_rejected : forall A (q : M A) st e,
  q st = (Raises e, st) -> same_twice q st.
Proof.
  intros A q st e H. unfold same_twice, client_of, outcome_of.
  rewrite H. simpl. rewrite H. now split.
Qed.

Lemma same_twice_query :
  forall A (q : M A) method endpoint data (k : json -> M A),
    (forall resp, log_only (k resp)) ->
    (forall st, q st = bind (_make_request method endpoint data) k st) ->
    forall self w, fixed_response w -> same_twice q (self, w).
Proof.
  intros A q method endpoint data k Hk Hq self w Hfix.
  unfold same_twice. rewrite !Hq. simpl fst.
  exact (query_twice A method endpoint data k Hk self w Hfix).
Qed.

(** C9.  Against a provider that answers two consecutive calls alike, each
    query method called twice in a row with the same arguments ends twice
    alike (the same result list, or the same exception), and the first call
    leaves the client object exactly as it found it: nothing the first call
    did to the client or to the world changes what the second one parses. *)
Theorem repeated_query_gives_same_result :
  forall self w,
    fixed_response w ->
    same_twice get_locations_and_languages (self, w)
    /\ (forall keywords ln lc lgn lgc uc tag,
          same_twice (get_search_volume keywords ln lc lgn lgc uc tag)
                     (self, w))
    /\ (forall keywords tag,
          same_twice (get_global_search_volume keywords tag) (self, w))
    /\ (forall keywords ln lc tag,
          same_twice (get_search_volume_by_location keywords ln lc tag)
                     (self, w)).
Proof.
  intros self w Hfix. split; [|split; [|split]].
  - apply same_twice_query
      with (method := "GET")
           (endpoint := "keywords_data/clickstream_data/locations_and_languages")
           (data := None) (k := ret); try assumption.
    + intros. apply log_only_ret.
    + intros st. unfold get_locations_and_languages.
      now rewrite bind_ret_r.
  - intros keywords ln lc lgn lgc uc tag.
    destruct (valid_search_volume keywords ln lc lgn lgc) eqn:Hv.
    + eapply same_twice_query; try eassumption.
      * apply log_only_parse_search_volume.
      * intros st. now apply get_search_volume_valid.
    + destruct (get_search_volume_invalid keywords ln lc lgn lgc uc tag
                  (self, w) Hv) as [msg Hm].
      eapply same_twice_rejected. exact Hm.
  - intros keywords tag.
    destruct (valid_global keywords) eqn:Hv.
    + eapply same_twice_query; try eassumption.
      * intros resp. apply log_only_parse_clickstream.
        intros result item acc. apply log_only_global_item.
      * intros st. now apply get_global_search_volume_valid.
    + destruct (get_global_search_volume_invalid keywords tag (self, w) Hv)
        as [msg Hm].
      eapply same_twice_rejected. exact Hm.
  - intros keywords ln lc tag.
    destruct (valid_by_location keywords ln lc) eqn:Hv.
    + eapply same_twice_query; try eassumption.
      * intros resp. apply log_only_parse_clickstream.
        apply log_only_by_location_item.
      * intros st. now apply get_search_volume_by_location_valid.
    + destruct (get_search_volume_by_location_invalid keywords ln lc tag
                  (self, w) Hv) as [msg Hm].
      eapply same_twice_rejected. exact Hm.
Qed.

Lemma repeated_query_gives_same_result_witness :
  let st := (Fixture.entered,
             Fixture.world
               (Fixture.always
                  (Fixture.envelope
                     [Fixture.task_ok [Fixture.item_a; Fixture.item_b]]))) in
  let q := get_search_volume ["running shoes"; "trail shoes"]
             (Some "United States") None (Some "English") None true None in
  client_of (q st) = Fixture.entered
  /\ outcome_of (q (snd (q st))) = outcome_of (q st).
Proof.
  intros st q.
  destruct (repeated_query_gives_same_result
              Fixture.entered
              (Fixture.world
                 (Fixture.always
                    (Fixture.envelope
                       [Fixture.task_ok [Fixture.item_a; Fixture.item_b]])))
              (fun req => eq_refl)) as (_ & H & _).
  exact (H ["running shoes"; "trail shoes"]
           (Some "United States") None (Some "English") None true None).
Defined.

(** The second call does see a changed world: the first call's request and
    log records are there. *)
Example second_call_world :
  let st := (Fixture.entered, Fixture.world (Fixture.always JNull)) in
  length (requests (world_of (get_locations_and_languages st))) = 1
  /\ length (requests
               (world_of
                  (get_locations_and_languages
                     (snd (get_locations_and_languages st))))) = 2.
Proof. split; reflexivity. Qed.

(** ** Parsing in the clickstream operations *)

Lemma missing_key_complete : forall item,
  has_both item = true -> missing_key item = None.
Proof.
  intros item H. unfold has_both in H. apply andb_true_iff in H as [Hk Hv].
  unfold missing_key. now rewrite Hk, Hv.
Qed.

Lemma missing_key_incomplete : forall item,
  has_both item = false ->
  exists k, missing_key item = Some k /\ (k = "keyword" \/ k = "search_volume").
Proof.
  intros item H. unfold has_both in H. unfold missing_key.
  destruct (has_field "keyword" item); simpl in *.
  - rewrite H. simpl. eauto.
  - eauto.
Qed.

Lemma first_missing_cons : forall p ps,
  first_missing (p :: ps)
  = match missing_key (snd p) with
    | Some k => Some k
    | None => first_missing ps
    end.
Proof.
  intros p ps. unfold first_missing. simpl.
  destruct (has_both (snd p)) eqn:Hb; simpl.
  - now rewrite (missing_key_complete _ Hb).
  - destruct (missing_key_incomplete _ Hb) as (k & Hk & _). now rewrite Hk.
Qed.

Lemma first_missing_app : forall ps qs,
  first_missing (ps ++ qs)
  = match first_missing ps with
    | Some k => Some k
    | None => first_missing qs
    end.
Proof.
  induction ps as [|p ps IH]; intros qs; [reflexivity|].
  rewrite <- app_comm_cons, !first_missing_cons.
  destruct (missing_key (snd p)); [reflexivity | apply IH].
Qed.

Lemma first_missing_exists : forall ps,
  Exists (fun p => has_both (snd p) = false) ps ->
  exists k, first_missing ps = Some k /\ (k = "keyword" \/ k = "search_volume").
Proof.
  induction 1 as [p ps Hp | p ps _ IH]; rewrite first_missing_cons.
  - destruct (missing_key_incomplete _ Hp) as (k & Hk & Hor).
    rewrite Hk. eauto.
  - destruct (has_both (snd p)) eqn:Hb.
    + now rewrite (missing_key_complete _ Hb).
    + destruct (missing_key_incomplete _ Hb) as (k & Hk & Hor).
      rewrite Hk. eauto.
Qed.

Section ClickstreamParsing.

Variable R : Type.
Variable body : json -> json -> list R -> M (list R).
Variable record : json * json -> R.

(** What the two item bodies have in common: on an object they either
    append one record or raise [KeyError] for the first missing field. *)
Hypothesis body_run : forall result item acc st,
  is_dict result = true -> is_dict item = true ->
  body result item acc st
  = (match missing_key item with
     | Some k => Raises (KeyError k)
     | None => Returns (acc ++ [record (result, item)])%list
     end, st).

Local Abbreviation walked := (walk record).

Lemma items_run : forall il result acc st,
  is_dict result = true -> forallb is_dict il = true ->
  for_each il (body result) acc st = (walked acc (map (pair result) il), st).
Proof.
  induction il as [|item il IH]; intros result acc st Hr Hd.
  - unfold walk. simpl. unfold ret. now rewrite app_nil_r.
  - simpl in Hd. apply andb_true_iff in Hd as [Hi Hd].
    cbn [for_each]. unfold bind. rewrite (body_run _ _ _ _ Hr Hi).
    unfold walk. cbn [map]. rewrite first_missing_cons. cbn [snd].
    destruct (missing_key item); [reflexivity|].
    rewrite (IH _ _ _ Hr Hd). unfold walk.
    destruct (first_missing _); [reflexivity|].
    cbn [map]. now rewrite <- app_assoc.
Qed.

Lemma walked_app : forall acc ps qs,
  walked acc (ps ++ qs)
  = match walked acc ps with
    | Returns acc' => walked acc' qs
    | other => other
    end.
Proof.
  intros acc ps qs. unfold walk. rewrite first_missing_app.
  destruct (first_missing ps); [reflexivity|].
  destruct (first_missing qs); [reflexivity|].
  now rewrite map_app, app_assoc.
Qed.

Lemma objects_under_is_dict : forall k v,
  objects_under k v = true -> is_dict v = true.
Proof. intros k v H. destruct v; try discriminate. reflexivity. Qed.

Lemma results_run : forall rl acc st,
  forallb (objects_under "items") rl = true ->
  for_each rl
    (fun result acc =>
       bind (eval (PyOps.get result "items" (JList [])))
         (fun its => bind (eval (PyOps.iter its))
                       (fun il => for_each il (body result) acc)))
    acc st
  = (walked acc
       (flat_map (fun r => map (pair r) (list_under "items" r)) rl), st).
Proof.
  induction rl as [|r rl IH]; intros acc st Ho.
  - unfold walk. simpl. unfold ret. now rewrite app_nil_r.
  - simpl in Ho. apply andb_true_iff in Ho as [Hr Ho].
    cbn [for_each flat_map]. rewrite walked_app.
    pose proof (objects_under_is_dict _ _ Hr) as Hd.
    assert (Hstep :
      bind (eval (PyOps.get r "items" (JList [])))
        (fun its => bind (eval (PyOps.iter its))
                      (fun il => for_each il (body r) acc)) st
      = (walked acc (map (pair r) (list_under "items" r)), st)).
    { destruct r; try discriminate.
      unfold bind, eval, ret. simpl.
      unfold objects_under, list_under in *.
      destruct (dict_get entries "items") as [its|]; simpl.
      - destruct its; try discriminate. simpl.
        now apply items_run.
      - unfold walk. simpl. now rewrite app_nil_r. }
    unfold bind at 1. rewrite Hstep.
    destruct (walked acc (map (pair r) (list_under "items" r)));
      try reflexivity.
    now apply IH.
Qed.

Lemma clickstream_task_run : forall t acc st,
  walkable_task t = true ->
  exists st',
    clickstream_task body t acc st
    = (walked acc (if succeeds t then pairs_of_task t else []), st').
Proof.
  intros t acc st Ht.
  unfold walkable_task in Ht. apply andb_true_iff in Ht as [Hd Hs].
  destruct t; try discriminate. clear Hd.
  unfold clickstream_task, bind, eval, ret. simpl.
  unfold succeeds, ne_int, field in *. cbn [PyOps.get] in *.
  destruct (eq_int match dict_get entries "status_code" with
                   | Some x => x
                   | None => JNull
                   end 20000) eqn:Hc; simpl in *.
  - unfold nested_task in Hs. apply andb_true_iff in Hs as [Ho Hi].
    unfold nested_items, bind, eval, ret, pairs_of_task. simpl.
    unfold objects_under, list_under in *.
    destruct (dict_get entries "result") as [rs|]; simpl.
    + destruct rs; try discriminate. simpl.
      eexists. now apply results_run.
    + eexists. unfold walk. simpl. now rewrite app_nil_r.
  - destruct st as [self w]. unfold logger. simpl.
    eexists. unfold walk. simpl. now rewrite app_nil_r.
Qed.

Lemma clickstream_tasks_run : forall tasks acc st,
  forallb walkable_task tasks = true ->
  exists st',
    for_each tasks (clickstream_task body) acc st
    = (walked acc (visited tasks), st').
Proof.
  induction tasks as [|t tasks IH]; intros acc st Hw.
  - exists st. unfold walk. simpl. unfold ret. now rewrite app_nil_r.
  - simpl in Hw. apply andb_true_iff in Hw as [Ht Hw].
    cbn [for_each]. unfold bind.
    destruct (clickstream_task_run t acc st Ht) as [st1 H1]. rewrite H1.
    assert (Hv : visited (t :: tasks)
                 = ((if succeeds t then pairs_of_task t else [])
                    ++ visited tasks)%list).
    { unfold visited. simpl. destruct (succeeds t); reflexivity. }
    rewrite Hv, walked_app.
    destruct (walked acc (if succeeds t then pairs_of_task t else []));
      try (eexists; reflexivity).
    now apply IH.
Qed.

Lemma parse_clickstream_run : forall resp st,
  objects_under "tasks" resp = true ->
  forallb walkable_task (list_under "tasks" resp) = true ->
  exists st',
    parse_clickstream body resp st
    = (walked [] (visited (list_under "tasks" resp)), st').
Proof.
  intros resp st Ho Hw.
  destruct resp; try discriminate.
  unfold parse_clickstream, bind, eval, ret. simpl.
  unfold objects_under, list_under in *.
  destruct (dict_get entries "tasks") as [ts|]; simpl.
  - destruct ts; try discriminate. simpl.
    now apply clickstream_tasks_run.
  - eexists. reflexivity.
Qed.

(** A valid clickstream call answered with a well-formed successful
    envelope ends as the walk over the visited items ends. *)
Lemma clickstream_query_run :
  forall method endpoint data self w sess resp,
    session self = Some sess ->
    rate_limiter self <> 0 ->
    answers w resp ->
    succeeds resp = true ->
    objects_under "tasks" resp = true ->
    forallb walkable_task (list_under "tasks" resp) = true ->
    outcome_of (bind (_make_request method endpoint data)
                     (parse_clickstream body) (self, w))
    = match first_missing (visited (list_under "tasks" resp)) with
      | Some k => Raises (KeyError k)
      | None => Returns (map record (visited (list_under "tasks" resp)))
      end.
Proof.
  intros method endpoint data self w sess resp Hs Hr Ha Hok Ho Hw.
  destruct (make_request_answered method endpoint data self w sess resp
              Hs Hr Ha) as (w' & Heq & _).
  unfold bind. rewrite Heq, (envelope_outcome_succeeds _ Hok).
  destruct (parse_clickstream_run resp (self, w') Ho Hw) as [st' Hp].
  rewrite Hp. reflexivity.
Qed.

End ClickstreamParsing.

Lemma global_item_run : forall (result item : json) acc st,
  is_dict result = true -> is_dict item = true ->
  global_item item acc st
  = (match missing_key item with
     | Some k => Raises (KeyError k)
     | None => Returns (acc ++ [global_record_of (result, item)])%list
     end, st).
Proof.
  intros result item acc st _ Hi. destruct item; try discriminate.
  unfold global_item, bind, eval, ret, raise, missing_key, has_field,
    dict_has, global_record_of, get_field, field_or. simpl.
  destruct (dict_get entries "keyword"); simpl; [|reflexivity].
  destruct (dict_get entries "search_volume"); reflexivity.
Qed.

Lemma by_location_item_run : forall (result item : json) acc st,
  is_dict result = true -> is_dict item = true ->
  by_location_item result item acc st
  = (match missing_key item with
     | Some k => Raises (KeyError k)
     | None => Returns (acc ++ [by_location_record_of (result, item)])%list
     end, st).
Proof.
  intros result item acc st Hr Hi.
  destruct item; try discriminate. destruct result; try discriminate.
  unfold by_location_item, bind, eval, ret, raise, missing_key, has_field,
    dict_has, by_location_record_of, get_field, field_or. simpl.
  destruct (dict_get entries "keyword"); simpl; [|reflexivity].
  destruct (dict_get entries "search_volume"); reflexivity.
Qed.

(** ** Claims about incomplete items in the clickstream operations *)

(** C10.  In [get_global_search_volume] and [get_search_volume_by_location],
    when the provider answers a valid call with a well-formed successful
    envelope in which some item of a succeeding task lacks [keyword] or
    [search_volume], the call does not drop that item: it raises [KeyError],
    naming the first missing field met. *)
Theorem clickstream_operations_raise_on_incomplete_item :
  forall self w sess resp,
    session self = Some sess ->
    rate_limiter self <> 0 ->
    answers w resp ->
    succeeds resp = true ->
    objects_under "tasks" resp = true ->
    forallb walkable_task (list_under "tasks" resp) = true ->
    Exists (fun p => has_both (snd p) = false)
           (visited (list_under "tasks" resp)) ->
    exists k,
      (k = "keyword" \/ k = "search_volume")
      /\ (forall keywords tag,
            valid_global keywords = true ->
            outcome_of (get_global_search_volume keywords tag (self, w))
            = Raises (KeyError k))
      /\ (forall keywords ln lc tag,
            valid_by_location keywords ln lc = true ->
            outcome_of (get_search_volume_by_location keywords ln lc tag
                          (self, w))
            = Raises (KeyError k)).
Proof.
  intros self w sess resp Hs Hr Ha Hok Ho Hw Hex.
  destruct (first_missing_exists _ Hex) as (k & Hk & Hor).
  exists k. split; [exact Hor|]. split.
  - intros keywords tag Hv.
    rewrite get_global_search_volume_valid by assumption.
    rewrite (clickstream_query_run _ (fun _ => global_item) global_record_of
               global_item_run _ _ _ self w sess resp Hs Hr Ha Hok Ho Hw).
    now rewrite Hk.
  - intros keywords ln lc tag Hv.
    rewrite get_search_volume_by_location_valid by assumption.
    rewrite (clickstream_query_run _ by_location_item by_location_record_of
               by_location_item_run _ _ _ self w sess resp Hs Hr Ha Hok Ho
               Hw).
    now rewrite Hk.
Qed.

Lemma clickstream_operations_raise_on_incomplete_item_witness :
  let st := (Fixture.entered,
             Fixture.world
               (Fixture.always
                  (Fixture.envelope
                     [Fixture.task_failed;
                      Fixture.nested_ok [Fixture.item_a; Fixture.item_partial;
                                         Fixture.item_b]]))) in
  exists k,
    outcome_of (get_global_search_volume ["running shoes"] None st)
    = Raises (KeyError k)
    /\ outcome_of (get_search_volume_by_location ["tv"] None (Some 2840%Z)
                     None st)
       = Raises (KeyError k).
Proof.
  intros st.
  assert (Hex : Exists (fun p => has_both (snd p) = false)
                  (visited
                     (list_under "tasks"
                        (Fixture.envelope
                           [Fixture.task_failed;
                            Fixture.nested_ok
                              [Fixture.item_a; Fixture.item_partial;
                               Fixture.item_b]])))).
  { apply Exists_cons_tl. apply Exists_cons_hd. reflexivity. }
  destruct (clickstream_operations_raise_on_incomplete_item
              Fixture.entered
              (Fixture.world
                 (Fixture.always
                    (Fixture.envelope
                       [Fixture.task_failed;
                        Fixture.nested_ok
                          [Fixture.item_a; Fixture.item_partial;
                           Fixture.item_b]])))
              {| closed := false |}
              (Fixture.envelope
                 [Fixture.task_failed;
                  Fixture.nested_ok [Fixture.item_a; Fixture.item_partial;
                                     Fixture.item_b]])
              eq_refl
              (fun H : 12 = 0 => O_S 11 (eq_sym H))
              (fun req => ex_intro _ 200%Z eq_refl)
              eq_refl eq_refl eq_refl Hex)
    as (k & _ & Hg & Hl).
  exists k. split.
  - apply Hg. reflexivity.
  - apply Hl. reflexivity.
Defined.

(** The same item is dropped by [get_search_volume] and fatal here. *)
Example incomplete_item_dropped_or_fatal :
  outcome_of
    (get_search_volume ["sandals"] None (Some 2840%Z) None (Some "en") true
       None
       (Fixture.entered,
        Fixture.world
          (Fixture.always
             (Fixture.envelope [Fixture.task_ok [Fixture.item_partial]]))))
  = Returns []
  /\ outcome_of
       (get_global_search_volume ["sandals"] None
          (Fixture.entered,
           Fixture.world
             (Fixture.always
                (Fixture.envelope
                   [Fixture.nested_ok [Fixture.item_partial]]))))
     = Raises (KeyError "search_volume").
Proof. split; reflexivity. Qed.

(** When every visited item is complete, the clickstream operations return
    one record per item. *)
Lemma clickstream_operations_return_complete_items :
  forall self w sess resp,
    session self = Some sess ->
    rate_limiter self <> 0 ->
    answers w resp ->
    succeeds resp = true ->
    objects_under "tasks" resp = true ->
    forallb walkable_task (list_under "tasks" resp) = true ->
    first_missing (visited (list_under "tasks" resp)) = None ->
    (forall keywords tag,
       valid_global keywords = true ->
       outcome_of (get_global_search_volume keywords tag (self, w))
       = Returns (map global_record_of (visited (list_under "tasks" resp))))
    /\ (forall keywords ln lc tag,
          valid_by_location keywords ln lc = true ->
          outcome_of (get_search_volume_by_location keywords ln lc tag
                        (self, w))
          = Returns (map by_location_record_of
                       (visited (list_under "tasks" resp)))).
Proof.
  intros self w sess resp Hs Hr Ha Hok Ho Hw Hnone. split.
  - intros keywords tag Hv.
    rewrite get_global_search_volume_valid by assumption.
    rewrite (clickstream_query_run _ (fun _ => global_item) global_record_of
               global_item_run _ _ _ self w sess resp Hs Hr Ha Hok Ho Hw).
    now rewrite Hnone.
  - intros keywords ln lc tag Hv.
    rewrite get_search_volume_by_location_valid by assumption.
    rewrite (clickstream_query_run _ by_location_item by_location_record_of
               by_location_item_run _ _ _ self w sess resp Hs Hr Ha Hok Ho
               Hw).
    now rewrite Hnone.
Qed.

(** ** Claims about the client's lifetime *)

Lemma aexit_keeps_session_set : forall self w sess,
  session self = Some sess ->
  __aexit__ (self, w)
  = (Returns tt, (set_session (Some {| closed := true |}) self, w)).
Proof. intros self w sess H. unfold __aexit__. now rewrite H. Qed.

Lemma aexit_unentered : forall self w,
  session self = None -> __aexit__ (self, w) = (Returns tt, (self, w)).
Proof. intros self w H. unfold __aexit__. now rewrite H. Qed.

(** Leaving twice is leaving once. *)
Lemma aexit_twice : forall st,
  bind __aexit__ (fun _ => __aexit__) st = __aexit__ st.
Proof.
  intros [self w]. unfold bind.
  destruct (session self) as [sess|] eqn:Hs.
  - rewrite (aexit_keeps_session_set _ _ _ Hs).
    now rewrite (aexit_keeps_session_set _ w {| closed := true |}).
  - now rewrite !(aexit_unentered _ _ Hs).
Qed.

(** The fixtures are what the constructor and [__aenter__] build. *)
Example fresh_is_constructed : __init__ 12 = inr Fixture.fresh.
Proof. reflexivity. Qed.

Example entered_is_aentered : forall w,
  __aenter__ (Fixture.fresh, w) = (Returns tt, (Fixture.entered, w)).
Proof. reflexivity. Qed.

Lemma query_past_guard :
  forall A method endpoint data (k : json -> M A) self w sess,
    (forall resp, log_only (k resp)) ->
    session self = Some sess ->
    outcome_of (bind (_make_request method endpoint data) k (self, w))
    <> Raises not_initialized.
Proof.
  intros A method endpoint data k self w sess Hk Hs.
  destruct (rate_limiter self) as [|n] eqn:Hn.
  - unfold bind. rewrite (make_request_blocked _ _ _ _ _ _ Hs Hn).
    discriminate.
  - assert (Hr : rate_limiter self <> 0) by congruence.
    destruct (query_sent A method endpoint data k Hk self w sess Hs Hr)
      as (r & w' & Heq & _ & _ & _ & Hg).
    rewrite Heq. exact Hg.
Qed.

Lemma query_unacquired :
  forall A method endpoint data (k : json -> M A) self w,
    session self = None ->
    bind (_make_request method endpoint data) k (self, w)
    = (Raises not_initialized, (self, w)).
Proof.
  intros. unfold bind. now rewrite make_request_unacquired.
Qed.

(** A query on a client whose session is closed, under an HTTP library that
    refuses closed sessions: whatever the provider behind it would have
    answered, the call is handed to the closed session and the library's
    refusal is what the caller sees. *)
Lemma closed_session_refuses :
  forall A method endpoint data (k : json -> M A) self w p,
    session self = Some {| closed := true |} ->
    rate_limiter self <> 0 ->
    provider w = Fixture.refuse_closed p ->
    Shapes.refused_by_closed_session
      (bind (_make_request method endpoint data) k (self, w)) self w
      (if String.eqb method "POST" then "POST" else "GET")
      (lstrip_slash endpoint)
      (if String.eqb method "POST" then data else None).
Proof.
  intros A method endpoint data k self w p Hs Hr Hp.
  destruct (make_request_sent method endpoint data self w
              {| closed := true |} Hs Hr) as (w' & Heq & _ & Hreq).
  unfold Shapes.refused_by_closed_session, bind. rewrite Heq, Hp.
  unfold outcome_of, client_of, world_of, sent_request in *.
  destruct (String.eqb method "POST"); simpl; rewrite Hreq; repeat split.
Qed.

(** C2, as the code has it.  Before the client has been entered (no session
    set), every query method fails without handing any call to the session
    and without touching the client or the world: with the guard's
    [DataForSEOError] ("Client not initialized") when its arguments pass
    validation ([get_locations_and_languages] always), and with the
    validation's [ValueError] otherwise, since arguments are checked first.
    After release the session attribute is still set, so the guard does not
    fire: no query method called on a released client ends with the guard's
    error, whatever the provider does.  The call still fails, and without
    any exchange with the provider: with invalid arguments it fails with
    [ValueError] as before; with valid arguments it is handed to the closed
    session, and under an HTTP library that refuses closed sessions the
    caller sees that library's own error, whatever the provider behind it
    would have answered, and the client is left as it was. *)
Theorem guard_fires_before_acquisition_only :
  forall self w,
    (session self = None ->
     get_locations_and_languages (self, w)
     = (Raises not_initialized, (self, w))
     /\ (forall keywords ln lc lgn lgc uc tag,
           exists e,
             get_search_volume keywords ln lc lgn lgc uc tag (self, w)
             = (Raises e, (self, w))
             /\ (valid_search_volume keywords ln lc lgn lgc = true ->
                 e = not_initialized)
             /\ (valid_search_volume keywords ln lc lgn lgc = false ->
                 exists msg, e = ValueError msg))
     /\ (forall keywords tag,
           exists e,
             get_global_search_volume keywords tag (self, w)
             = (Raises e, (self, w))
             /\ (valid_global keywords = true -> e = not_initialized)
             /\ (valid_global keywords = false ->
                 exists msg, e = ValueError msg))
     /\ (forall keywords ln lc tag,
           exists e,
             get_search_volume_by_location keywords ln lc tag (self, w)
             = (Raises e, (self, w))
             /\ (valid_by_location keywords ln lc = true ->
                 e = not_initialized)
             /\ (valid_by_location keywords ln lc = false ->
                 exists msg, e = ValueError msg)))
    /\ (forall sess,
          session self = Some sess ->
          let released := snd (__aexit__ (self, w)) in
          outcome_of (get_locations_and_languages released)
          <> Raises not_initialized
          /\ (forall keywords ln lc lgn lgc uc tag,
                outcome_of (get_search_volume keywords ln lc lgn lgc uc tag
                              released)
                <> Raises not_initialized)
          /\ (forall keywords tag,
                outcome_of (get_global_search_volume keywords tag released)
                <> Raises not_initialized)
          /\ (forall keywords ln lc tag,
                outcome_of (get_search_volume_by_location keywords ln lc tag
                              released)
                <> Raises not_initialized))
    /\ (forall sess p,
          session self = Some sess ->
          rate_limiter self <> 0 ->
          provider w = Fixture.refuse_closed p ->
          let released := snd (__aexit__ (self, w)) in
          Shapes.refused_by_closed_session
            (get_locations_and_languages released) (fst released) w
            "GET" "keywords_data/clickstream_data/locations_and_languages"
            None
          /\ (forall keywords ln lc lgn lgc uc tag,
                (valid_search_volume keywords ln lc lgn lgc = true ->
                 Shapes.refused_by_closed_session
                   (get_search_volume keywords ln lc lgn lgc uc tag released)
                   (fst released) w
                   "POST" "keywords_data/google/search_volume/live"
                   (Some (search_volume_payload keywords ln lc lgn lgc uc
                            tag)))
                /\ (valid_search_volume keywords ln lc lgn lgc = false ->
                    exists msg,
                      get_search_volume keywords ln lc lgn lgc uc tag
                        released
                      = (Raises (ValueError msg), released)))
          /\ (forall keywords tag,
                (valid_global keywords = true ->
                 Shapes.refused_by_closed_session
                   (get_global_search_volume keywords tag released)
                   (fst released) w
                   "POST"
                   "keywords_data/clickstream_data/search_volume_normalized/live"
                   (Some (global_payload keywords tag)))
                /\ (valid_global keywords = false ->
                    exists msg,
                      get_global_search_volume keywords tag released
                      = (Raises (ValueError msg), released)))
          /\ (forall keywords ln lc tag,
                (valid_by_location keywords ln lc = true ->
                 Shapes.refused_by_closed_session
                   (get_search_volume_by_location keywords ln lc tag
                      released)
                   (fst released) w
                   "POST"
                   "keywords_data/clickstream_data/search_volume_by_location/live"
                   (Some (by_location_payload keywords ln lc tag)))
                /\ (valid_by_location keywords ln lc = false ->
                    exists msg,
                      get_search_volume_by_location keywords ln lc tag
                        released
                      = (Raises (ValueError msg), released)))).
Proof.
  intros self w. split; [|split].
  - intros Hs. split; [|split; [|split]].
    + unfold get_locations_and_languages.
      now apply make_request_unacquired.
    + intros keywords ln lc lgn lgc uc tag.
      destruct (valid_search_volume keywords ln lc lgn lgc) eqn:Hv.
      * exists not_initialized.
        rewrite get_search_volume_valid by assumption.
        rewrite query_unacquired by assumption.
        split; [reflexivity|split; [intros; reflexivity|intros; discriminate]].
      * destruct (get_search_volume_invalid keywords ln lc lgn lgc uc tag
                    (self, w) Hv) as [msg Hm].
        exists (ValueError msg). rewrite Hm.
        split; [reflexivity|split; [intros; discriminate|intros; eauto]].
    + intros keywords tag.
      destruct (valid_global keywords) eqn:Hv.
      * exists not_initialized.
        rewrite get_global_search_volume_valid by assumption.
        rewrite query_unacquired by assumption.
        split; [reflexivity|split; [intros; reflexivity|intros; discriminate]].
      * destruct (get_global_search_volume_invalid keywords tag (self, w) Hv)
          as [msg Hm].
        exists (ValueError msg). rewrite Hm.
        split; [reflexivity|split; [intros; discriminate|intros; eauto]].
    + intros keywords ln lc tag.
      destruct (valid_by_location keywords ln lc) eqn:Hv.
      * exists not_initialized.
        rewrite get_search_volume_by_location_valid by assumption.
        rewrite query_unacquired by assumption.
        split; [reflexivity|split; [intros; reflexivity|intros; discriminate]].
      * destruct (get_search_volume_by_location_invalid keywords ln lc tag
                    (self, w) Hv) as [msg Hm].
        exists (ValueError msg). rewrite Hm.
        split; [reflexivity|split; [intros; discriminate|intros; eauto]].
  - intros sess Hs released. subst released.
    rewrite (aexit_keeps_session_set _ _ _ Hs). cbn [snd].
    set (self' := set_session (Some {| closed := true |}) self).
    assert (Hs' : session self' = Some {| closed := true |}) by reflexivity.
    split; [|split; [|split]].
    + unfold get_locations_and_languages.
      rewrite <- bind_ret_r.
      apply query_past_guard with (sess := {| closed := true |});
        [intros; apply log_only_ret | exact Hs'].
    + intros keywords ln lc lgn lgc uc tag.
      destruct (valid_search_volume keywords ln lc lgn lgc) eqn:Hv.
      * rewrite get_search_volume_valid by assumption.
        apply query_past_guard with (sess := {| closed := true |});
          [apply log_only_parse_search_volume | exact Hs'].
      * destruct (get_search_volume_invalid keywords ln lc lgn lgc uc tag
                    (self', w) Hv) as [msg Hm].
        rewrite Hm. discriminate.
    + intros keywords tag.
      destruct (valid_global keywords) eqn:Hv.
      * rewrite get_global_search_volume_valid by assumption.
        apply query_past_guard with (sess := {| closed := true |});
          [|exact Hs'].
        intros resp. apply log_only_parse_clickstream.
        intros result item acc. apply log_only_global_item.
      * destruct (get_global_search_volume_invalid keywords tag (self', w)
                    Hv) as [msg Hm].
        rewrite Hm. discriminate.
    + intros keywords ln lc tag.
      destruct (valid_by_location keywords ln lc) eqn:Hv.
      * rewrite get_search_volume_by_location_valid by assumption.
        apply query_past_guard with (sess := {| closed := true |});
          [|exact Hs'].
        intros resp. apply log_only_parse_clickstream.
        apply log_only_by_location_item.
      * destruct (get_search_volume_by_location_invalid keywords ln lc tag
                    (self', w) Hv) as [msg Hm].
        rewrite Hm. discriminate.
  - intros sess p Hs Hr Hp released. subst released.
    rewrite (aexit_keeps_session_set _ _ _ Hs). cbn [snd fst].
    set (self' := set_session (Some {| closed := true |}) self).
    assert (Hs' : session self' = Some {| closed := true |}) by reflexivity.
    assert (Hr' : rate_limiter self' <> 0) by exact Hr.
    split; [|split; [|split]].
    + unfold get_locations_and_languages. rewrite <- bind_ret_r.
      exact (closed_session_refuses _ "GET"
               "keywords_data/clickstream_data/locations_and_languages"
               None ret self' w p Hs' Hr' Hp).
    + intros keywords ln lc lgn lgc uc tag. split.
      * intros Hv. rewrite get_search_volume_valid by assumption.
        exact (closed_session_refuses _ "POST"
                 "keywords_data/google/search_volume/live"
                 (Some (search_volume_payload keywords ln lc lgn lgc uc tag))
                 parse_search_volume self' w p Hs' Hr' Hp).
      * intros Hv. now apply get_search_volume_invalid.
    + intros keywords tag. split.
      * intros Hv. rewrite get_global_search_volume_valid by assumption.
        exact (closed_session_refuses _ "POST"
                 "keywords_data/clickstream_data/search_volume_normalized/live"
                 (Some (global_payload keywords tag))
                 (parse_clickstream (fun _ => global_item))
                 self' w p Hs' Hr' Hp).
      * intros Hv. now apply get_global_search_volume_invalid.
    + intros keywords ln lc tag. split.
      * intros Hv.
        rewrite get_search_volume_by_location_valid by assumption.
        exact (closed_session_refuses _ "POST"
                 "keywords_data/clickstream_data/search_volume_by_location/live"
                 (Some (by_location_payload keywords ln lc tag))
                 (parse_clickstream by_location_item)
                 self' w p Hs' Hr' Hp).
      * intros Hv. now apply get_search_volume_by_location_invalid.
Qed.

Lemma guard_fires_before_acquisition_only_witness :
  let w := Fixture.world
             (Fixture.refuse_closed
                (Fixture.always
                   (Fixture.envelope [Fixture.task_ok [Fixture.item_a]]))) in
  let released := snd (__aexit__ (Fixture.entered, w)) in
  get_locations_and_languages (Fixture.fresh, w)
  = (Raises not_initialized, (Fixture.fresh, w))
  /\ outcome_of (get_locations_and_languages released)
     <> Raises not_initialized
  /\ Shapes.refused_by_closed_session
       (get_search_volume ["running shoes"] (Some "United States") None
          (Some "English") None true None released)
       Fixture.released w
       "POST" "keywords_data/google/search_volume/live"
       (Some (search_volume_payload ["running shoes"] (Some "United States")
                None (Some "English") None true None)).
Proof.
  intros w released. split; [|split].
  - exact (proj1 (proj1 (guard_fires_before_acquisition_only
                           Fixture.fresh w) eq_refl)).
  - exact (proj1 (proj1 (proj2 (guard_fires_before_acquisition_only
                                  Fixture.entered w))
                    {| closed := false |} eq_refl)).
  - exact (proj1 (proj1 (proj2
                    (proj2 (proj2 (guard_fires_before_acquisition_only
                                     Fixture.entered w))
                       {| closed := false |}
                       (Fixture.always
                          (Fixture.envelope
                             [Fixture.task_ok [Fixture.item_a]]))
                       eq_refl
                       (fun H : 12 = 0 => O_S 11 (eq_sym H))
                       eq_refl))
                    ["running shoes"] (Some "United States") None
                    (Some "English") None true None)
             eq_refl).
Defined.

(** On the same released client with an HTTP library that did not refuse
    closed sessions the call would go through: the refusal is the
    library's, not the client's. *)
Example released_client_has_no_guard_of_its_own :
  outcome_of
    (get_search_volume ["running shoes"] (Some "United States") None
       (Some "English") None true None
       (Fixture.released,
        Fixture.world
          (Fixture.always
             (Fixture.envelope [Fixture.task_ok [Fixture.item_a]]))))
  = Returns [record_of Fixture.item_a].
Proof. reflexivity. Qed.

(** C2 as stated fails.  A client that was entered and then released is
    outside its acquired lifetime, yet a query on it does not end with the
    guard's error: the call passes the guard and is handed to the closed
    session, whose refusal is what the caller sees.  And a client that was
    never entered answers a call with invalid arguments with [ValueError],
    not with the guard's error. *)
Lemma released_client_passes_guard :
  let w := Fixture.world (Fixture.refuse_closed (Fixture.always JNull)) in
  let released :=
    snd (bind Client.__aenter__ (fun _ => Client.__aexit__)
           (Fixture.fresh, w)) in
  ~ (outcome_of (get_locations_and_languages released)
     = Raises not_initialized
     /\ requests (world_of (get_locations_and_languages released)) = [])
  /\ outcome_of (get_locations_and_languages released)
     = Raises (OtherException "RuntimeError" "Session is closed")
  /\ outcome_of (get_search_volume [] None None None None true None
                   (Fixture.fresh, w))
     <> Raises not_initialized.
Proof.
  intros w released. split; [|split].
  - intros [H _]. vm_compute in H. discriminate H.
  - reflexivity.
  - vm_compute. discriminate.
Qed.


(** * Further properties of the client and of its callers *)

Import Batch Cleaning Shapes.

(** ** What a call does to the client and the world *)

Lemma make_request_world : forall method endpoint data self w,
  one_call_at_most (_make_request method endpoint data) self w.
Proof.
  intros method endpoint data self w. unfold one_call_at_most.
  destruct (session self) as [sess|] eqn:Hs.
  - destruct (rate_limiter self) as [|n] eqn:Hn.
    + rewrite (make_request_blocked _ _ _ _ _ _ Hs Hn).
      unfold client_of, world_of. simpl.
      repeat split; auto. exists []. now rewrite app_nil_r.
    + unfold _make_request, bind, self_session, self_base_url. rewrite Hs.
      unfold async_with_rate_limiter. rewrite Hn.
      unfold try_except, bind, logger.
      destruct (String.eqb method "POST"); unfold session_send; simpl;
        match goal with
        | |- context [provider w (length (requests w)) ?r] =>
            destruct (provider w (length (requests w)) r)
              as [[m|n' m] | status [[m|n' m] | resp]]
        end; simpl;
        try rewrite check_envelope_outcome;
        try (unfold envelope_outcome;
             destruct resp; simpl;
             try destruct (eq_int (field entries "status_code") 20000);
             simpl);
        unfold client_of, world_of; simpl;
        rewrite (restore_rate_limiter _ _ Hn);
        (split; [reflexivity|]); (split; [reflexivity|]);
        (split; [right; eexists; reflexivity|]);
        rewrite <- ?app_assoc; eexists; reflexivity.
  - rewrite (make_request_unacquired _ _ _ _ _ Hs).
    unfold client_of, world_of. simpl.
    repeat split; auto. exists []. now rewrite app_nil_r.
Qed.

Lemma one_call_at_most_bind :
  forall A method endpoint data (k : json -> M A) self w,
    (forall resp, log_only (k resp)) ->
    one_call_at_most (bind (_make_request method endpoint data) k) self w.
Proof.
  intros A method endpoint data k self w Hk.
  destruct (make_request_world method endpoint data self w)
    as (Hc & Hp & Hr & l & Hl).
  unfold one_call_at_most, client_of, world_of, bind in *.
  destruct (_make_request method endpoint data (self, w))
    as [[resp | e |] [self' w']]; simpl in *; subst self'.
  - destruct (Hk resp) as (r & l' & _ & Hrun). rewrite Hrun. simpl.
    repeat split; auto.
    exists (l ++ l')%list. now rewrite Hl, app_assoc.
  - repeat split; auto. now exists l.
  - repeat split; auto. now exists l.
Qed.

Lemma one_call_at_most_rejected : forall A (q : M A) self w e,
  q (self, w) = (Raises e, (self, w)) -> one_call_at_most q self w.
Proof.
  intros A q self w e H. unfold one_call_at_most, client_of, world_of.
  rewrite H. simpl. repeat split; auto. exists []. now rewrite app_nil_r.
Qed.

(** X1.  Whatever the arguments, the state of the client and the behaviour
    of the provider, one invocation of a query method leaves the client
    object as it found it (session untouched, slot given back), hands the
    session no call or exactly one, keeps every earlier request, and only
    appends to the log. *)
Theorem query_methods_hand_over_one_call_at_most :
  forall self w,
    one_call_at_most get_locations_and_languages self w
    /\ (forall keywords ln lc lgn lgc uc tag,
          one_call_at_most
            (get_search_volume keywords ln lc lgn lgc uc tag) self w)
    /\ (forall keywords tag,
          one_call_at_most (get_global_search_volume keywords tag) self w)
    /\ (forall keywords ln lc tag,
          one_call_at_most
            (get_search_volume_by_location keywords ln lc tag) self w).
Proof.
  intros self w. split; [|split; [|split]].
  - apply make_request_world.
  - intros keywords ln lc lgn lgc uc tag.
    destruct (valid_search_volume keywords ln lc lgn lgc) eqn:Hv.
    + unfold one_call_at_most.
      rewrite get_search_volume_valid by assumption.
      apply one_call_at_most_bind. apply log_only_parse_search_volume.
    + destruct (get_search_volume_invalid keywords ln lc lgn lgc uc tag
                  (self, w) Hv) as [msg Hm].
      eapply one_call_at_most_rejected. exact Hm.
  - intros keywords tag.
    destruct (valid_global keywords) eqn:Hv.
    + unfold one_call_at_most.
      rewrite get_global_search_volume_valid by assumption.
      apply one_call_at_most_bind.
      intros resp. apply log_only_parse_clickstream.
      intros result item acc. apply log_only_global_item.
    + destruct (get_global_search_volume_invalid keywords tag (self, w) Hv)
        as [msg Hm].
      eapply one_call_at_most_rejected. exact Hm.
  - intros keywords ln lc tag.
    destruct (valid_by_location keywords ln lc) eqn:Hv.
    + unfold one_call_at_most.
      rewrite get_search_volume_by_location_valid by assumption.
      apply one_call_at_most_bind.
      intros resp. apply log_only_parse_clickstream.
      apply log_only_by_location_item.
    + destruct (get_search_volume_by_location_invalid keywords ln lc tag
                  (self, w) Hv) as [msg Hm].
      eapply one_call_at_most_rejected. exact Hm.
Qed.

(** ** How a request can end *)

(** X2.  When the HTTP library raises, from the call itself or from reading
    the body, [_make_request] turns an [aiohttp.ClientError] into
    [DataForSEOError] ("Request failed: ...") and lets any other exception
    through unchanged; either way the client is left as it was and the last
    log record is the ERROR record of that failure. *)
Theorem transport_failure_is_classified :
  forall method endpoint data self w sess e,
    session self = Some sess ->
    rate_limiter self <> 0 ->
    transport_raises
      (provider w (length (requests w))
         (sent_request self sess method endpoint data)) e ->
    let run := _make_request method endpoint data (self, w) in
    outcome_of run = Raises (transport_failure e)
    /\ client_of run = self
    /\ last (log (world_of run)) (INFO, [])
       = failure_record method
           (base_url self ++ "/" ++ lstrip_slash endpoint) e.
Proof.
  intros method endpoint data self w sess e Hs Hr Ht run. subst run.
  unfold _make_request, bind, self_session, self_base_url. rewrite Hs.
  unfold async_with_rate_limiter.
  destruct (rate_limiter self) as [|n] eqn:Hn; [congruence|].
  unfold try_except, bind, logger.
  unfold transport_raises, sent_request, request_of in Ht.
  unfold failure_record, outcome_of, client_of, world_of.
  destruct (String.eqb method "POST"); unfold session_send;
    simpl in Ht |- *;
    (destruct Ht as [Ht | [status Ht]]; rewrite Ht; destruct e; simpl;
     rewrite (restore_rate_limiter _ _ Hn);
     (split; [reflexivity|]); (split; [reflexivity|]);
     apply last_last).
Qed.

Lemma transport_failure_is_classified_witness :
  let w := Fixture.world
             (fun _ _ => SendFails (TClientError "Cannot connect to host")) in
  outcome_of (_make_request "GET" "appendix/user_data" None
                (Fixture.entered, w))
  = Raises (DataForSEOError
              [Lit "Request failed: ";
               ExnText (ClientError "Cannot connect to host")]).
Proof.
  intros w.
  exact (proj1 (transport_failure_is_classified
                  "GET" "appendix/user_data" None Fixture.entered w
                  {| closed := false |}
                  (TClientError "Cannot connect to host")
                  eq_refl
                  (fun H : 12 = 0 => O_S 11 (eq_sym H))
                  (or_introl eq_refl))).
Defined.

(** X3.  [_make_request] knows two methods only: anything but the exact
    string "POST" is sent as a GET, and a GET never carries the payload it
    was given. *)
Theorem non_post_method_is_sent_as_get :
  forall method endpoint data self w sess,
    session self = Some sess ->
    rate_limiter self <> 0 ->
    String.eqb method "POST" = false ->
    requests (world_of (_make_request method endpoint data (self, w)))
    = (requests w
       ++ [{| via := sess;
              http_method := "GET";
              url := base_url self ++ "/" ++ lstrip_slash endpoint;
              payload := None |}])%list.
Proof.
  intros method endpoint data self w sess Hs Hr Hm.
  destruct (make_request_sent method endpoint data self w sess Hs Hr)
    as (w' & Heq & _ & Hreq).
  rewrite Heq. unfold world_of. simpl. rewrite Hreq.
  unfold sent_request. rewrite Hm. reflexivity.
Qed.

Lemma non_post_method_is_sent_as_get_witness :
  requests
    (world_of
       (_make_request "PUT" "/keywords_data/tasks" (Some (JList []))
          (Fixture.entered, Fixture.world (Fixture.always JNull))))
  = [{| via := {| closed := false |};
        http_method := "GET";
        url := "https://api.dataforseo.com/v3/keywords_data/tasks";
        payload := None |}].
Proof.
  exact (non_post_method_is_sent_as_get
           "PUT" "/keywords_data/tasks" (Some (JList []))
           Fixture.entered (Fixture.world (Fixture.always JNull))
           {| closed := false |}
           eq_refl
           (fun H : 12 = 0 => O_S 11 (eq_sym H))
           eq_refl).
Defined.

(** X4.  A client built with [rate_limit = 0] never gets a request out:
    once entered, every query with valid arguments waits at the gate for
    ever; nothing is handed to the session and nothing is logged. *)
Theorem no_free_slot_blocks_every_query :
  forall self w sess,
    session self = Some sess ->
    rate_limiter self = 0 ->
    get_locations_and_languages (self, w) = (Blocks, (self, w))
    /\ (forall keywords ln lc lgn lgc uc tag,
          valid_search_volume keywords ln lc lgn lgc = true ->
          get_search_volume keywords ln lc lgn lgc uc tag (self, w)
          = (Blocks, (self, w)))
    /\ (forall keywords tag,
          valid_global keywords = true ->
          get_global_search_volume keywords tag (self, w)
          = (Blocks, (self, w)))
    /\ (forall keywords ln lc tag,
          valid_by_location keywords ln lc = true ->
          get_search_volume_by_location keywords ln lc tag (self, w)
          = (Blocks, (self, w))).
Proof.
  intros self w sess Hs Hn. split; [|split; [|split]].
  - unfold get_locations_and_languages.
    exact (make_request_blocked _ _ _ _ _ _ Hs Hn).
  - intros. rewrite get_search_volume_valid by assumption.
    unfold bind. now rewrite (make_request_blocked _ _ _ _ _ _ Hs Hn).
  - intros. rewrite get_global_search_volume_valid by assumption.
    unfold bind. now rewrite (make_request_blocked _ _ _ _ _ _ Hs Hn).
  - intros. rewrite get_search_volume_by_location_valid by assumption.
    unfold bind. now rewrite (make_request_blocked _ _ _ _ _ _ Hs Hn).
Qed.

Lemma no_free_slot_blocks_every_query_witness :
  let self := {| base_url := "https://api.dataforseo.com/v3";
                 rate_limiter := 0;
                 session := Some {| closed := false |} |} in
  let w := Fixture.world (Fixture.always (Fixture.envelope [])) in
  get_locations_and_languages (self, w) = (Blocks, (self, w))
  /\ get_global_search_volume ["running shoes"] None (self, w)
     = (Blocks, (self, w)).
Proof.
  intros self w.
  destruct (no_free_slot_blocks_every_query self w {| closed := false |}
              eq_refl eq_refl) as (H1 & _ & H3 & _).
  split; [exact H1|]. apply H3. reflexivity.
Defined.

(** The client of the witness is what the constructor and [__aenter__]
    build from [rate_limit = 0]. *)
Example zero_rate_limit_client :
  match __init__ 0 with
  | inr self => client_of (__aenter__ (self, Fixture.world (Fixture.always JNull)))
  | inl _ => Fixture.fresh
  end
  = {| base_url := "https://api.dataforseo.com/v3";
       rate_limiter := 0;
       session := Some {| closed := false |} |}.
Proof. reflexivity. Qed.

(** A call answered with body [resp] ends as the envelope check ends when
    that check raises. *)
Lemma bind_make_request_envelope_raises :
  forall A method endpoint data self w sess resp e (k : json -> M A),
    session self = Some sess ->
    rate_limiter self <> 0 ->
    answers w resp ->
    envelope_outcome resp = Raises e ->
    outcome_of (bind (_make_request method endpoint data) k (self, w))
    = Raises e.
Proof.
  intros A method endpoint data self w sess resp e k Hs Hr Ha He.
  destruct (make_request_answered method endpoint data self w sess resp
              Hs Hr Ha) as (w' & Heq & _).
  unfold bind. rewrite Heq, He. reflexivity.
Qed.

(** X5.  [get_locations_and_languages] returns the parsed body as it came
    whenever the envelope's status code is 20000: the tasks inside are not
    looked at. *)
Theorem locations_and_languages_pass_through :
  forall self w sess resp,
    session self = Some sess ->
    rate_limiter self <> 0 ->
    answers w resp ->
    succeeds resp = true ->
    outcome_of (get_locations_and_languages (self, w)) = Returns resp.
Proof.
  intros self w sess resp Hs Hr Ha Hok.
  unfold get_locations_and_languages.
  destruct (make_request_answered "GET"
              "keywords_data/clickstream_data/locations_and_languages"
              None self w sess resp Hs Hr Ha) as (w' & Heq & _).
  rewrite Heq, (envelope_outcome_succeeds _ Hok). reflexivity.
Qed.

Lemma locations_and_languages_pass_through_witness :
  outcome_of
    (get_locations_and_languages
       (Fixture.entered,
        Fixture.world
          (Fixture.always (Fixture.envelope [Fixture.task_failed]))))
  = Returns (Fixture.envelope [Fixture.task_failed]).
Proof.
  exact (locations_and_languages_pass_through
           Fixture.entered
           (Fixture.world
              (Fixture.always (Fixture.envelope [Fixture.task_failed])))
           {| closed := false |}
           (Fixture.envelope [Fixture.task_failed])
           eq_refl
           (fun H : 12 = 0 => O_S 11 (eq_sym H))
           (fun req => ex_intro _ 200%Z eq_refl)
           eq_refl).
Defined.

(** X6.  A body that parses as JSON but is not an object (a list, a string,
    a number, null) makes every operation raise [AttributeError], not
    [DataForSEOError]: the envelope check calls [.get] on it. *)
Theorem non_object_body_raises_attribute_error :
  forall self w sess resp,
    session self = Some sess ->
    rate_limiter self <> 0 ->
    answers w resp ->
    is_dict resp = false ->
    let e := AttributeError (type_name resp) "get" in
    outcome_of (get_locations_and_languages (self, w)) = Raises e
    /\ (forall keywords ln lc lgn lgc uc tag,
          valid_search_volume keywords ln lc lgn lgc = true ->
          outcome_of (get_search_volume keywords ln lc lgn lgc uc tag
                        (self, w)) = Raises e)
    /\ (forall keywords tag,
          valid_global keywords = true ->
          outcome_of (get_global_search_volume keywords tag (self, w))
          = Raises e)
    /\ (forall keywords ln lc tag,
          valid_by_location keywords ln lc = true ->
          outcome_of (get_search_volume_by_location keywords ln lc tag
                        (self, w)) = Raises e).
Proof.
  intros self w sess resp Hs Hr Ha Hd e.
  assert (He : envelope_outcome resp = Raises e).
  { destruct resp; try discriminate; reflexivity. }
  split; [|split; [|split]].
  - unfold get_locations_and_languages. rewrite <- bind_ret_r.
    now apply bind_make_request_envelope_raises with (sess := sess)
                                                     (resp := resp).
  - intros. rewrite get_search_volume_valid by assumption.
    now apply bind_make_request_envelope_raises with (sess := sess)
                                                     (resp := resp).
  - intros. rewrite get_global_search_volume_valid by assumption.
    now apply bind_make_request_envelope_raises with (sess := sess)
                                                     (resp := resp).
  - intros. rewrite get_search_volume_by_location_valid by assumption.
    now apply bind_make_request_envelope_raises with (sess := sess)
                                                     (resp := resp).
Qed.

Lemma non_object_body_raises_attribute_error_witness :
  let st := (Fixture.entered,
             Fixture.world (Fixture.always (JList [Fixture.task_failed]))) in
  outcome_of (get_locations_and_languages st)
  = Raises (AttributeError "list" "get")
  /\ outcome_of (get_search_volume ["running shoes"] (Some "United States")
                   None (Some "English") None true None st)
     = Raises (AttributeError "list" "get").
Proof.
  intros st.
  destruct (non_object_body_raises_attribute_error
              Fixture.entered
              (Fixture.world (Fixture.always (JList [Fixture.task_failed])))
              {| closed := false |}
              (JList [Fixture.task_failed])
              eq_refl
              (fun H : 12 = 0 => O_S 11 (eq_sym H))
              (fun req => ex_intro _ 200%Z eq_refl)
              eq_refl) as (H1 & H2 & _).
  split; [exact H1|]. apply H2. reflexivity.
Defined.

(** ** Envelopes that are not as the wire protocol says *)

Lemma for_each_app : forall A B (body : A -> B -> M B) xs ys acc st,
  for_each (xs ++ ys) body acc st
  = bind (for_each xs body acc) (fun acc' => for_each ys body acc') st.
Proof.
  intros A B body xs ys. induction xs as [|x xs IH]; intros acc st.
  - reflexivity.
  - rewrite <- app_comm_cons. cbn [for_each]. unfold bind.
    destruct (body x acc st) as [[acc' | e |] st']; try reflexivity.
    rewrite IH. reflexivity.
Qed.

(** X7.  In [get_search_volume] the default of [task.get("result", [])]
    covers a missing key only.  A succeeding task whose [result] is present
    but cannot be iterated ([null], a number, a boolean) makes the whole call
    raise [TypeError]; the records of the tasks before it are lost. *)
Theorem get_search_volume_null_result_raises :
  forall self w sess e pre d post v keywords ln lc lgn lgc uc tag,
    session self = Some sess ->
    rate_limiter self <> 0 ->
    valid_search_volume keywords ln lc lgn lgc = true ->
    answers w (JDict e) ->
    succeeds (JDict e) = true ->
    dict_get e "tasks" = Some (JList (pre ++ JDict d :: post)) ->
    forallb locale_task pre = true ->
    succeeds (JDict d) = true ->
    dict_get d "result" = Some v ->
    not_iterable v = true ->
    outcome_of (get_search_volume keywords ln lc lgn lgc uc tag (self, w))
    = Raises TypeError.
Proof.
  intros self w sess e pre d post v keywords ln lc lgn lgc uc tag
    Hs Hr Hv Ha Hok Ht Hpre Hd Hres Hni.
  rewrite get_search_volume_valid by assumption.
  destruct (make_request_answered "POST"
              "keywords_data/google/search_volume/live"
              (Some (search_volume_payload keywords ln lc lgn lgc uc tag))
              self w sess (JDict e) Hs Hr Ha) as (w' & Heq & _).
  unfold bind at 1. rewrite Heq, (envelope_outcome_succeeds _ Hok).
  unfold parse_search_volume, bind, eval, ret. simpl. rewrite Ht. simpl.
  rewrite for_each_app. unfold bind at 1.
  rewrite (search_volume_tasks_run _ _ _ _ Hpre).
  cbn [for_each]. unfold bind at 1.
  unfold search_volume_task, bind, eval, ret. simpl.
  unfold succeeds, field in Hd. unfold ne_int.
  destruct (dict_get d "status_code") as [c|]; [|discriminate].
  rewrite Hd, Hres. simpl.
  destruct v; try discriminate; reflexivity.
Qed.

Lemma get_search_volume_null_result_raises_witness :
  outcome_of
    (get_search_volume ["running shoes"] (Some "United States") None
       (Some "English") None true None
       (Fixture.entered,
        Fixture.world
          (Fixture.always
             (Fixture.envelope
                [Fixture.task_ok [Fixture.item_a];
                 JDict [("status_code", JInt 20000); ("result", JNull)]]))))
  = Raises TypeError.
Proof.
  apply (get_search_volume_null_result_raises
           Fixture.entered _ {| closed := false |}
           [("status_code", JInt 20000); ("status_message", JStr "Ok.");
            ("tasks",
             JList [Fixture.task_ok [Fixture.item_a];
                    JDict [("status_code", JInt 20000); ("result", JNull)]])]
           [Fixture.task_ok [Fixture.item_a]]
           [("status_code", JInt 20000); ("result", JNull)]
           [] JNull).
  - reflexivity.
  - simpl. discriminate.
  - reflexivity.
  - intros req. exists 200%Z. reflexivity.
  - reflexivity.
  - reflexivity.
  - reflexivity.
  - reflexivity.
  - reflexivity.
  - reflexivity.
Defined.

(** X8.  A successful envelope that has no [tasks] key is not an error:
    the three parsing operations return the empty list. *)
Theorem missing_tasks_give_empty_result :
  forall self w sess e,
    session self = Some sess ->
    rate_limiter self <> 0 ->
    answers w (JDict e) ->
    succeeds (JDict e) = true ->
    dict_get e "tasks" = None ->
    (forall keywords ln lc lgn lgc uc tag,
       valid_search_volume keywords ln lc lgn lgc = true ->
       outcome_of (get_search_volume keywords ln lc lgn lgc uc tag (self, w))
       = Returns [])
    /\ (forall keywords tag,
          valid_global keywords = true ->
          outcome_of (get_global_search_volume keywords tag (self, w))
          = Returns [])
    /\ (forall keywords ln lc tag,
          valid_by_location keywords ln lc = true ->
          outcome_of (get_search_volume_by_location keywords ln lc tag
                        (self, w))
          = Returns []).
Proof.
  intros self w sess e Hs Hr Ha Hok Ht.
  assert (Ho : objects_under "tasks" (JDict e) = true).
  { unfold objects_under. now rewrite Ht. }
  assert (Hl : list_under "tasks" (JDict e) = []).
  { unfold list_under. now rewrite Ht. }
  split; [|split].
  - intros keywords ln lc lgn lgc uc tag Hv.
    destruct (get_search_volume_run self w sess (JDict e) keywords ln lc lgn
                lgc uc tag Hs Hr Hv Ha Hok Ho) as (w' & Heq & _).
    + now rewrite Hl.
    + rewrite Heq, Hl. reflexivity.
  - intros keywords tag Hv.
    rewrite get_global_search_volume_valid by assumption.
    rewrite (clickstream_query_run _ (fun _ => global_item) global_record_of
               global_item_run _ _ _ self w sess (JDict e) Hs Hr Ha Hok Ho);
      rewrite Hl; reflexivity.
  - intros keywords ln lc tag Hv.
    rewrite get_search_volume_by_location_valid by assumption.
    rewrite (clickstream_query_run _ by_location_item by_location_record_of
               by_location_item_run _ _ _ self w sess (JDict e) Hs Hr Ha Hok
               Ho);
      rewrite Hl; reflexivity.
Qed.

Lemma missing_tasks_give_empty_result_witness :
  let st := (Fixture.entered,
             Fixture.world
               (Fixture.always (JDict [("status_code", JInt 20000)]))) in
  outcome_of (get_search_volume ["running shoes"] None (Some 2840%Z) None
                (Some "en") true None st) = Returns []
  /\ outcome_of (get_global_search_volume ["running shoes"] None st)
     = Returns [].
Proof.
  intros st.
  destruct (missing_tasks_give_empty_result
              Fixture.entered
              (Fixture.world
                 (Fixture.always (JDict [("status_code", JInt 20000)])))
              {| closed := false |}
              [("status_code", JInt 20000)]
              eq_refl
              (fun H : 12 = 0 => O_S 11 (eq_sym H))
              (fun req => ex_intro _ 200%Z eq_refl)
              eq_refl eq_refl) as (H1 & H2 & _).
  split; [apply H1 | apply H2]; reflexivity.
Defined.

(** X9.  A successful envelope whose [tasks] is present but cannot be
    iterated ([null], a number, a boolean) makes the three parsing operations
    raise [TypeError]: the default of [response.get("tasks", [])] covers a
    missing key only. *)
Theorem null_tasks_raise_type_error :
  forall self w sess e v,
    session self = Some sess ->
    rate_limiter self <> 0 ->
    answers w (JDict e) ->
    succeeds (JDict e) = true ->
    dict_get e "tasks" = Some v ->
    not_iterable v = true ->
    (forall keywords ln lc lgn lgc uc tag,
       valid_search_volume keywords ln lc lgn lgc = true ->
       outcome_of (get_search_volume keywords ln lc lgn lgc uc tag (self, w))
       = Raises TypeError)
    /\ (forall keywords tag,
          valid_global keywords = true ->
          outcome_of (get_global_search_volume keywords tag (self, w))
          = Raises TypeError)
    /\ (forall keywords ln lc tag,
          valid_by_location keywords ln lc = true ->
          outcome_of (get_search_volume_by_location keywords ln lc tag
                        (self, w))
          = Raises TypeError).
Proof.
  intros self w sess e v Hs Hr Ha Hok Ht Hni.
  assert (Hparse : forall A method endpoint data (k : json -> M A),
            (forall st, outcome_of (k (JDict e) st) = Raises TypeError) ->
            outcome_of (bind (_make_request method endpoint data) k (self, w))
            = Raises TypeError).
  { intros A method endpoint data k Hk.
    destruct (make_request_answered method endpoint data self w sess
                (JDict e) Hs Hr Ha) as (w' & Heq & _).
    unfold bind. rewrite Heq, (envelope_outcome_succeeds _ Hok).
    apply Hk. }
  split; [|split].
  - intros keywords ln lc lgn lgc uc tag Hv.
    rewrite get_search_volume_valid by assumption.
    apply Hparse. intros st.
    unfold parse_search_volume, bind, eval. simpl. rewrite Ht.
    destruct v; try discriminate; reflexivity.
  - intros keywords tag Hv.
    rewrite get_global_search_volume_valid by assumption.
    apply Hparse. intros st.
    unfold parse_clickstream, bind, eval. simpl. rewrite Ht.
    destruct v; try discriminate; reflexivity.
  - intros keywords ln lc tag Hv.
    rewrite get_search_volume_by_location_valid by assumption.
    apply Hparse. intros st.
    unfold parse_clickstream, bind, eval. simpl. rewrite Ht.
    destruct v; try discriminate; reflexivity.
Qed.

Lemma null_tasks_raise_type_error_witness :
  let st := (Fixture.entered,
             Fixture.world
               (Fixture.always
                  (JDict [("status_code", JInt 20000);
                          ("tasks", JNull)]))) in
  outcome_of (get_search_volume ["running shoes"] None (Some 2840%Z) None
                (Some "en") true None st) = Raises TypeError
  /\ outcome_of (get_search_volume_by_location ["tv"] (Some "Canada") None
                   None st) = Raises TypeError.
Proof.
  intros st.
  destruct (null_tasks_raise_type_error
              Fixture.entered
              (Fixture.world
                 (Fixture.always
                    (JDict [("status_code", JInt 20000); ("tasks", JNull)])))
              {| closed := false |}
              [("status_code", JInt 20000); ("tasks", JNull)]
              JNull
              eq_refl
              (fun H : 12 = 0 => O_S 11 (eq_sym H))
              (fun req => ex_intro _ 200%Z eq_refl)
              eq_refl eq_refl eq_refl) as (H1 & _ & H3).
  split; [apply H1 | apply H3]; reflexivity.
Defined.

(** ** The clickstream operations on complete items *)

Lemma clickstream_operations_return_complete_items_witness :
  let st := (Fixture.entered,
             Fixture.world
               (Fixture.always
                  (Fixture.envelope
                     [Fixture.task_failed;
                      Fixture.nested_ok [Fixture.item_a; Fixture.item_b]]))) in
  let result := JDict [("location_code", JInt 2840);
                       ("items", JList [Fixture.item_a; Fixture.item_b])] in
  outcome_of (get_global_search_volume ["running shoes"] None st)
  = Returns [global_record_of (result, Fixture.item_a);
             global_record_of (result, Fixture.item_b)]
  /\ outcome_of (get_search_volume_by_location ["tv"] None (Some 2840%Z)
                   None st)
     = Returns [by_location_record_of (result, Fixture.item_a);
                by_location_record_of (result, Fixture.item_b)].
Proof.
  intros st result.
  destruct (clickstream_operations_return_complete_items
              Fixture.entered
              (Fixture.world
                 (Fixture.always
                    (Fixture.envelope
                       [Fixture.task_failed;
                        Fixture.nested_ok [Fixture.item_a; Fixture.item_b]])))
              {| closed := false |}
              (Fixture.envelope
                 [Fixture.task_failed;
                  Fixture.nested_ok [Fixture.item_a; Fixture.item_b]])
              eq_refl
              (fun H : 12 = 0 => O_S 11 (eq_sym H))
              (fun req => ex_intro _ 200%Z eq_refl)
              eq_refl eq_refl eq_refl eq_refl) as (Hg & Hl).
  split; [apply Hg | apply Hl]; reflexivity.
Defined.

(** The location code of a by-location record is the one of the enclosing
    result object, not one of the item. *)
Example by_location_record_takes_result_location :
  location_code
    (by_location_record_of
       (JDict [("location_code", JInt 2840)],
        JDict [("keyword", JStr "tv"); ("search_volume", JInt 10);
               ("location_code", JInt 2124)]))
  = JInt 2840.
Proof. reflexivity. Qed.

Lemma clickstream_payload_objects : forall keywords ln lc tag,
  global_payload keywords tag
  = JList [JDict (clickstream_object keywords [] tag)]
  /\ (supplied ln lc = true ->
      by_location_payload keywords ln lc tag
      = JList [JDict (clickstream_object keywords (locale_field ln lc) tag)]).
Proof.
  intros keywords ln lc tag.
  unfold global_payload, by_location_payload, clickstream_object,
    locale_field, tag_field, supplied.
  split.
  - destruct (truthy_str tag); reflexivity.
  - intros H. destruct (truthy_str ln); simpl in H; [|rewrite H];
      destruct (truthy_str tag); reflexivity.
Qed.

(** X11.  The requests of the two clickstream operations.  A valid
    [get_global_search_volume] call sends one POST whose object holds the
    keywords and, when supplied, the tag, and nothing about a location; a
    valid [get_search_volume_by_location] call sends one POST whose object
    holds the keywords, [location_name] when a name was supplied and
    otherwise [location_code], and the tag when supplied. *)
Theorem clickstream_requests_carry_keywords_location_and_tag :
  forall self w sess keywords ln lc tag,
    session self = Some sess ->
    rate_limiter self <> 0 ->
    (valid_global keywords = true ->
     requests (world_of (get_global_search_volume keywords tag (self, w)))
     = (requests w
        ++ [request_of self sess "POST"
              "keywords_data/clickstream_data/search_volume_normalized/live"
              (Some (JList [JDict (clickstream_object keywords [] tag)]))])%list)
    /\ (valid_by_location keywords ln lc = true ->
        requests (world_of (get_search_volume_by_location keywords ln lc tag
                              (self, w)))
        = (requests w
           ++ [request_of self sess "POST"
                 "keywords_data/clickstream_data/search_volume_by_location/live"
                 (Some (JList [JDict (clickstream_object keywords
                                        (locale_field ln lc) tag)]))])%list).
Proof.
  intros self w sess keywords ln lc tag Hs Hr.
  destruct (clickstream_payload_objects keywords ln lc tag) as [Hg Hl].
  split.
  - intros Hv. rewrite get_global_search_volume_valid by assumption.
    destruct (query_sent _ "POST"
                "keywords_data/clickstream_data/search_volume_normalized/live"
                (Some (global_payload keywords tag))
                (parse_clickstream (fun _ => global_item))
                (fun resp => log_only_parse_clickstream _ (fun _ => global_item)
                               resp (fun _ => log_only_global_item))
                self w sess Hs Hr) as (r & w' & Heq & _ & Hreq & _).
    rewrite Heq. unfold world_of. simpl. rewrite Hreq, Hg. reflexivity.
  - intros Hv. rewrite get_search_volume_by_location_valid by assumption.
    destruct (query_sent _ "POST"
                "keywords_data/clickstream_data/search_volume_by_location/live"
                (Some (by_location_payload keywords ln lc tag))
                (parse_clickstream by_location_item)
                (fun resp => log_only_parse_clickstream _ by_location_item
                               resp log_only_by_location_item)
                self w sess Hs Hr) as (r & w' & Heq & _ & Hreq & _).
    rewrite Heq. unfold world_of. simpl. rewrite Hreq.
    unfold valid_by_location in Hv. apply andb_true_iff in Hv as [_ Hsup].
    rewrite (Hl Hsup). reflexivity.
Qed.

Lemma clickstream_requests_carry_keywords_location_and_tag_witness :
  let st := (Fixture.entered, Fixture.world (Fixture.always JNull)) in
  map payload
    (requests (world_of (get_global_search_volume ["running shoes"]
                           (Some "batch-1") st)))
  = [Some (JList [JDict [("keywords", JList [JStr "running shoes"]);
                         ("tag", JStr "batch-1")]])]
  /\ map payload
       (requests (world_of (get_search_volume_by_location ["tv"]
                              (Some "Canada") (Some 2124%Z) None st)))
     = [Some (JList [JDict [("keywords", JList [JStr "tv"]);
                            ("location_name", JStr "Canada")]])].
Proof.
  intros st.
  destruct (clickstream_requests_carry_keywords_location_and_tag
              Fixture.entered (Fixture.world (Fixture.always JNull))
              {| closed := false |} ["running shoes"] None None
              (Some "batch-1") eq_refl
              (fun H : 12 = 0 => O_S 11 (eq_sym H))) as [Hg _].
  destruct (clickstream_requests_carry_keywords_location_and_tag
              Fixture.entered (Fixture.world (Fixture.always JNull))
              {| closed := false |} ["tv"] (Some "Canada") (Some 2124%Z)
              None eq_refl
              (fun H : 12 = 0 => O_S 11 (eq_sym H))) as [_ Hl].
  split.
  - unfold st. rewrite (Hg eq_refl). reflexivity.
  - unfold st. rewrite (Hl eq_refl). reflexivity.
Defined.

(** ** The caller [process_keywords_batch] *)

Lemma batch_arguments_valid : forall keywords location_code,
  keywords <> [] -> length keywords <= 1000 -> location_code <> 0%Z ->
  valid_search_volume keywords None (Some location_code) None (Some "en")
  = true.
Proof.
  intros keywords location_code Hk Hl Hc. unfold valid_search_volume.
  destruct keywords; [congruence|].
  apply Nat.leb_le in Hl. rewrite Hl.
  unfold supplied, supplied_str. simpl.
  apply Z.eqb_neq in Hc. now rewrite Hc.
Qed.

Lemma batch_on_client_error :
  forall current_date keywords location_code st out msg,
    outcome_of (get_search_volume keywords None (Some location_code) None
                  (Some "en") true None st)
    = Raises (DataForSEOError msg) ->
    fst (process_keywords_batch current_date keywords location_code (st, out))
    = Returns (map (fun k => row (JStr k) (JInt (-1)) current_date) keywords).
Proof.
  intros current_date keywords location_code st out msg H.
  unfold process_keywords_batch, outcome_of in *.
  destruct (get_search_volume keywords None (Some location_code) None
              (Some "en") true None st) as [[r | e |] st'];
    simpl in H; try discriminate.
  inversion H. reflexivity.
Qed.

(** X13.  When the client fails with [DataForSEOError] -- it was never
    entered, the provider's envelope carries a failing status code, or the
    HTTP library raised [aiohttp.ClientError] -- [process_keywords_batch]
    does not raise: it returns one row per keyword of the batch, in the
    batch's order, each with volume -1. *)
Theorem process_keywords_batch_marks_failed_batch :
  forall current_date keywords location_code self w out,
    keywords <> [] ->
    length keywords <= 1000 ->
    location_code <> 0%Z ->
    session self = None
    \/ (exists sess d,
          session self = Some sess /\ rate_limiter self <> 0
          /\ answers w (JDict d)
          /\ eq_int (field d "status_code") 20000 = false)
    \/ (exists sess m,
          session self = Some sess /\ rate_limiter self <> 0
          /\ forall req,
               provider w (length (requests w)) req
               = SendFails (TClientError m)) ->
    fst (process_keywords_batch current_date keywords location_code
           ((self, w), out))
    = Returns (map (fun k => row (JStr k) (JInt (-1)) current_date) keywords).
Proof.
  intros current_date keywords location_code self w out Hk Hl Hc Hcause.
  pose proof (batch_arguments_valid keywords location_code Hk Hl Hc) as Hv.
  destruct Hcause as [Hs | [(sess & d & Hs & Hr & Ha & Hf)
                           | (sess & m & Hs & Hr & Hp)]].
  - eapply batch_on_client_error.
    rewrite get_search_volume_valid by assumption.
    rewrite query_unacquired by assumption. reflexivity.
  - eapply batch_on_client_error.
    rewrite get_search_volume_valid by assumption.
    apply bind_make_request_raises with (sess := sess); eassumption.
  - eapply batch_on_client_error.
    rewrite get_search_volume_valid by assumption.
    destruct (make_request_sent "POST"
                "keywords_data/google/search_volume/live"
                (Some (search_volume_payload keywords None
                         (Some location_code) None (Some "en") true None))
                self w sess Hs Hr) as (w' & Heq & _).
    unfold bind. rewrite Heq, Hp. reflexivity.
Qed.

Lemma process_keywords_batch_marks_failed_batch_witness :
  fst (process_keywords_batch "2025-06-01" ["Running Shoes"; "tv"] 2840
         ((Fixture.entered,
           Fixture.world (Fixture.always Fixture.envelope_failed)), []))
  = Returns [row (JStr "Running Shoes") (JInt (-1)) "2025-06-01";
             row (JStr "tv") (JInt (-1)) "2025-06-01"].
Proof.
  apply (process_keywords_batch_marks_failed_batch
           "2025-06-01" ["Running Shoes"; "tv"] 2840%Z Fixture.entered
           (Fixture.world (Fixture.always Fixture.envelope_failed)) []).
  - discriminate.
  - simpl. lia.
  - discriminate.
  - right. left. exists {| closed := false |}.
    exists [("status_code", JInt 40100);
            ("status_message", JStr "You are not authorized.");
            ("tasks", JNull)].
    split; [reflexivity|]. split; [simpl; discriminate|].
    split; [intros req; exists 200%Z; reflexivity | reflexivity].
Defined.

(** X14.  [process_keywords_batch] catches [DataForSEOError] only.  An empty
    batch, a batch of more than 1000 keywords, or location code 0 makes it
    raise the client's [ValueError]; no rows are returned, and the client,
    the world and the console are left as they were. *)
Theorem process_keywords_batch_lets_validation_errors_through :
  forall current_date keywords location_code st out,
    keywords = [] \/ 1000 < length keywords \/ location_code = 0%Z ->
    exists msg,
      process_keywords_batch current_date keywords location_code (st, out)
      = (Raises (ValueError msg), (st, out)).
Proof.
  intros current_date keywords location_code st out H.
  assert (Hv : valid_search_volume keywords None (Some location_code) None
                 (Some "en") = false).
  { unfold valid_search_volume.
    destruct H as [H | [H | H]].
    - subst keywords. reflexivity.
    - apply Nat.leb_gt in H. rewrite H. now rewrite andb_false_r.
    - subst location_code. unfold supplied. simpl.
      now rewrite andb_false_r. }
  destruct (get_search_volume_invalid keywords None (Some location_code) None
              (Some "en") true None st Hv) as [msg Hm].
  exists msg. unfold process_keywords_batch. now rewrite Hm.
Qed.

Lemma process_keywords_batch_lets_validation_errors_through_witness :
  let st := (Fixture.entered, Fixture.world (Fixture.always JNull)) in
  exists msg,
    process_keywords_batch "2025-06-01" [] 2840 (st, [])
    = (Raises (ValueError msg), (st, [])).
Proof.
  intros st.
  apply (process_keywords_batch_lets_validation_errors_through
           "2025-06-01" [] 2840%Z st []).
  left. reflexivity.
Defined.

Lemma lowered_keywords_strings : forall search_results,
  forallb (fun r => is_str (keyword r)) search_results = true ->
  exists found,
    lowered_keywords search_results = inr found
    /\ forall f, In f found ->
         exists r s, In r search_results /\ keyword r = JStr s /\ lower s = f.
Proof.
  induction search_results as [|r rest IH]; intros H.
  - exists []. split; [reflexivity|]. intros f [].
  - simpl in H. apply andb_true_iff in H as [Hr Hrest].
    destruct (IH Hrest) as (found & Hf & Hin).
    destruct (keyword r) as [| | | | s | |] eqn:Hk; try discriminate.
    exists (lower s :: found). split.
    + simpl. rewrite Hk. simpl. now rewrite Hf.
    + intros f [Hf' | Hf'].
      * exists r, s. repeat split; auto. now left.
      * destruct (Hin f Hf') as (r' & s' & Hr' & Hk' & Hl').
        exists r', s'. repeat split; auto. now right.
Qed.

Lemma lowered_keywords_not_string : forall search_results,
  forallb (fun r => is_str (keyword r)) search_results = false ->
  exists ty, lowered_keywords search_results = inl (AttributeError ty "lower").
Proof.
  induction search_results as [|r rest IH]; intros H; [discriminate|].
  simpl in H. simpl.
  destruct (keyword r) as [| | | | s | |] eqn:Hk; simpl in *;
    try (eexists; reflexivity).
  destruct (IH H) as [ty Hty]. rewrite Hty. eauto.
Qed.

Lemma volume_or_zero_not_null : forall v, volume_or_zero v <> JNull.
Proof. intros v. destruct v; discriminate. Qed.

(** The set the code builds and the relation it stands for: a lower-cased
    batch keyword is among the lower-cased record keywords exactly when some
    record has the same keyword up to case. *)
Lemma found_is_same_up_to_case : forall search_results found k,
  lowered_keywords search_results = inr found ->
  existsb (String.eqb (lower k)) found
  = existsb (same_up_to_case k) search_results.
Proof.
  induction search_results as [|r rest IH]; intros found k H.
  - simpl in H. inversion H. reflexivity.
  - cbn [lowered_keywords] in H. cbn [existsb].
    unfold same_up_to_case at 1. unfold str_lower in H.
    destruct (keyword r) as [| | | | s | |]; try discriminate.
    destruct (lowered_keywords rest) as [e | ks] eqn:Hrest;
      [discriminate|].
    inversion H; subst found. cbn [existsb].
    now rewrite (IH ks k eq_refl).
Qed.

(** X15.  When the client returns records whose keywords are all strings,
    [process_keywords_batch] returns the records' rows, in the records'
    order, followed by a zero-volume row for exactly those batch keywords
    that no record keyword matches up to case ([unmatched]), in the batch's
    order, and for no other keyword.  So every keyword of the batch is
    accounted for by a row with the same lower-cased keyword, no row has a
    null volume (a null [search_volume] is written as 0 and can no longer be
    told from a measured zero), and the console is untouched. *)
Theorem process_keywords_batch_accounts_for_every_keyword :
  forall current_date keywords location_code st out search_results,
    outcome_of (get_search_volume keywords None (Some location_code) None
                  (Some "en") true None st)
    = Returns search_results ->
    forallb (fun r => is_str (keyword r)) search_results = true ->
    let rows :=
      (map (fun r => row (keyword r) (volume_or_zero (search_volume r))
                         current_date) search_results
       ++ map (fun k => row (JStr k) (JInt 0) current_date)
              (unmatched search_results keywords))%list in
    fst (process_keywords_batch current_date keywords location_code
           (st, out))
    = Returns rows
    /\ (forall k, In k keywords ->
          exists r, In r rows /\ row_key r = Some (lower k))
    /\ (forall r, In r rows ->
          exists v, row_volume r = Some v /\ v <> JNull)
    /\ snd (snd (process_keywords_batch current_date keywords location_code
                   (st, out))) = out.
Proof.
  intros current_date keywords location_code st out search_results Hret Hstr
    rows.
  destruct (lowered_keywords_strings _ Hstr) as (found & Hfound & Hin).
  assert (Hmissing :
            filter (fun k => negb (existsb (String.eqb (lower k)) found))
                   keywords
            = unmatched search_results keywords).
  { unfold unmatched. apply filter_ext. intros k.
    now rewrite (found_is_same_up_to_case _ _ k Hfound). }
  unfold process_keywords_batch, outcome_of in *.
  destruct (get_search_volume keywords None (Some location_code) None
              (Some "en") true None st) as [[rs | e |] st'];
    simpl in Hret; try discriminate.
  inversion Hret; subst rs. rewrite Hfound. cbn [fst snd].
  rewrite Hmissing. fold rows.
  split; [reflexivity|]. split; [|split].
  - intros k Hk.
    destruct (existsb (same_up_to_case k) search_results) eqn:Hex.
    + apply existsb_exists in Hex as (r & Hr & Hsame).
      unfold same_up_to_case in Hsame.
      destruct (keyword r) as [| | | | s | |] eqn:Hkw; try discriminate.
      apply String.eqb_eq in Hsame.
      exists (row (keyword r) (volume_or_zero (search_volume r))
                  current_date).
      split.
      * apply in_or_app. left.
        apply in_map_iff. exists r. now split.
      * unfold row_key, row. simpl. rewrite Hkw. now rewrite Hsame.
    + exists (row (JStr k) (JInt 0) current_date). split.
      * apply in_or_app. right. apply in_map_iff. exists k.
        split; [reflexivity|]. apply filter_In. split; [exact Hk|].
        now rewrite Hex.
      * reflexivity.
  - intros r Hr. apply in_app_or in Hr as [Hr | Hr];
      apply in_map_iff in Hr as (x & Hx & _); subst r.
    + exists (volume_or_zero (search_volume x)).
      split; [reflexivity | apply volume_or_zero_not_null].
    + exists (JInt 0). split; [reflexivity | discriminate].
  - reflexivity.
Qed.

Lemma process_keywords_batch_accounts_for_every_keyword_witness :
  let st := (Fixture.entered,
             Fixture.world
               (Fixture.always
                  (Fixture.envelope
                     [Fixture.task_ok [Fixture.item_a; Fixture.item_b]]))) in
  fst (process_keywords_batch "2025-06-01" ["Running Shoes"; "tv"] 2840
         (st, []))
  = Returns [row (JStr "running shoes") (JInt 5400) "2025-06-01";
             row (JStr "trail shoes") (JInt 0) "2025-06-01";
             row (JStr "tv") (JInt 0) "2025-06-01"].
Proof.
  intros st.
  exact (proj1 (process_keywords_batch_accounts_for_every_keyword
                  "2025-06-01" ["Running Shoes"; "tv"] 2840%Z st []
                  [record_of Fixture.item_a; record_of Fixture.item_b]
                  eq_refl eq_refl)).
Defined.

(** Only the unmatched keywords get a zero row: a batch keyword that a
    record matches up to case gets none. *)
Example matched_keyword_gets_no_zero_row :
  unmatched [record_of Fixture.item_a; record_of Fixture.item_b]
            ["Running Shoes"; "tv"; "TRAIL SHOES"]
  = ["tv"].
Proof. reflexivity. Qed.

(** The batch of the witness, row by row: "Running Shoes" is matched by the
    record "running shoes", "tv" by none. *)
Example batch_rows :
  fst (process_keywords_batch "2025-06-01" ["Running Shoes"; "tv"] 2840
         ((Fixture.entered,
           Fixture.world
             (Fixture.always
                (Fixture.envelope
                   [Fixture.task_ok [Fixture.item_a; Fixture.item_b]]))),
          []))
  = Returns [row (JStr "running shoes") (JInt 5400) "2025-06-01";
             row (JStr "trail shoes") (JInt 0) "2025-06-01";
             row (JStr "tv") (JInt 0) "2025-06-01"].
Proof. reflexivity. Qed.

(** X16.  One record whose keyword is not a string (the provider sent
    [null], which [get_search_volume] keeps) makes [process_keywords_batch]
    raise [AttributeError] from [.lower()]; the error is not caught and the
    rows already built for the batch are lost. *)
Theorem process_keywords_batch_fails_on_non_string_keyword :
  forall current_date keywords location_code st out search_results,
    outcome_of (get_search_volume keywords None (Some location_code) None
                  (Some "en") true None st)
    = Returns search_results ->
    forallb (fun r => is_str (keyword r)) search_results = false ->
    exists ty,
      fst (process_keywords_batch current_date keywords location_code
             (st, out))
      = Raises (AttributeError ty "lower").
Proof.
  intros current_date keywords location_code st out search_results Hret Hstr.
  destruct (lowered_keywords_not_string _ Hstr) as (ty & Hty).
  exists ty. unfold process_keywords_batch, outcome_of in *.
  destruct (get_search_volume keywords None (Some location_code) None
              (Some "en") true None st) as [[rs | e |] st'];
    simpl in Hret; try discriminate.
  inversion Hret; subst rs. now rewrite Hty.
Qed.

Lemma process_keywords_batch_fails_on_non_string_keyword_witness :
  exists ty,
    fst (process_keywords_batch "2025-06-01" ["running shoes"] 2840
           ((Fixture.entered,
             Fixture.world
               (Fixture.always
                  (Fixture.envelope
                     [Fixture.task_ok
                        [Fixture.item_a;
                         JDict [("keyword", JNull);
                                ("search_volume", JInt 10)]]]))),
            []))
    = Raises (AttributeError ty "lower").
Proof.
  apply (process_keywords_batch_fails_on_non_string_keyword
           "2025-06-01" ["running shoes"] 2840%Z
           (Fixture.entered,
            Fixture.world
              (Fixture.always
                 (Fixture.envelope
                    [Fixture.task_ok
                       [Fixture.item_a;
                        JDict [("keyword", JNull);
                               ("search_volume", JInt 10)]]])))
           []
           [record_of Fixture.item_a;
            record_of (JDict [("keyword", JNull);
                              ("search_volume", JInt 10)])]).
  - reflexivity.
  - reflexivity.
Defined.

(** ** The caller's helper [clean_keyword_for_api] *)

Lemma rstrip_dots_last : forall s, last_is dot_or_comma (rstrip_dots s) = false.
Proof.
  induction s as [|c s IH]; [reflexivity|].
  cbn [rstrip_dots].
  destruct (rstrip_dots s) as [|c' r] eqn:Hr.
  - destruct (dot_or_comma c) eqn:Hc; [reflexivity|]. simpl. exact Hc.
  - exact IH.
Qed.

Lemma rstrip_dots_absent : forall s,
  has_char dot_or_comma s = false -> rstrip_dots s = s.
Proof.
  induction s as [|c s IH]; intros H; [reflexivity|].
  simpl in H. apply orb_false_iff in H as [Hc Hs].
  cbn [rstrip_dots]. rewrite (IH Hs).
  destruct s; [now rewrite Hc | reflexivity].
Qed.

Lemma prefix_has_char : forall f old s,
  String.prefix old s = true ->
  has_char f old = true -> has_char f s = true.
Proof.
  induction old as [|c old IH]; intros s Hp Hc; [discriminate|].
  destruct s as [|c' s]; [discriminate|].
  simpl in Hp. destruct (ascii_dec c c') as [E | E]; [|discriminate].
  subst c'. simpl in *.
  destruct (f c); [reflexivity|]. simpl in *. now apply IH.
Qed.

Lemma replace_absent : forall f old new s,
  has_char f old = true -> has_char f s = false -> replace old new s = s.
Proof.
  intros f old new s Hold. unfold replace.
  induction s as [|c s IH]; intros Hs; [reflexivity|].
  cbn [replace_from].
  destruct (String.prefix old (String c s)) eqn:Hp.
  - rewrite (prefix_has_char f _ _ Hp Hold) in Hs. discriminate.
  - simpl in Hs. apply orb_false_iff in Hs as [_ Hs]. now rewrite (IH Hs).
Qed.

Lemma replacements_absent : forall rs s,
  forallb (fun r => has_char dot_or_comma (fst r)) rs = true ->
  has_char dot_or_comma s = false ->
  fold_left (fun k r => replace (fst r) (snd r) k) rs s = s.
Proof.
  induction rs as [|r rs IH]; intros s Hrs Hs; [reflexivity|].
  simpl in Hrs. apply andb_true_iff in Hrs as [Hr Hrs].
  cbn [fold_left].
  rewrite (replace_absent dot_or_comma _ _ _ Hr Hs). now apply IH.
Qed.

(** X17.  The keyword [clean_keyword_for_api] returns never ends with a
    period or a comma, whatever the keyword and the updater's state. *)
Theorem cleaned_keyword_has_no_trailing_punctuation :
  forall keyword st,
    last_is dot_or_comma (fst (fst (clean_keyword_for_api keyword st)))
    = false.
Proof.
  intros keyword [self lg]. unfold clean_keyword_for_api.
  destruct (negb (String.eqb (cleaned keyword) keyword)); simpl;
    apply rstrip_dots_last.
Qed.

(** X18.  A keyword that contains neither a period nor a comma comes back
    from [clean_keyword_for_api] unchanged and flagged as not modified; the
    list of modified keywords and the log are left as they were. *)
Theorem clean_keyword_leaves_plain_keywords_alone :
  forall keyword st,
    has_char dot_or_comma keyword = false ->
    clean_keyword_for_api keyword st = ((keyword, false), st).
Proof.
  intros keyword [self lg] H. unfold clean_keyword_for_api.
  assert (Hc : cleaned keyword = keyword).
  { unfold cleaned.
    rewrite (replacements_absent replacements keyword eq_refl H).
    now apply rstrip_dots_absent. }
  rewrite Hc, String.eqb_refl. reflexivity.
Qed.

Lemma clean_keyword_leaves_plain_keywords_alone_witness :
  let st := ({| keyword_mapping := []; modified_keywords := [] |}, []) in
  clean_keyword_for_api "Stable Diffusion 3" st
  = (("Stable Diffusion 3", false), st).
Proof.
  intros st.
  apply (clean_keyword_leaves_plain_keywords_alone "Stable Diffusion 3" st).
  reflexivity.
Defined.

(** Cleaning is not idempotent: removing ".com" can bring the two halves of
    another ".com" together. *)
Example cleaning_twice_differs :
  cleaned "a.co.comm" = "a.com" /\ cleaned (cleaned "a.co.comm") = "a".
Proof. split; reflexivity. Qed.

(** A modified keyword is recorded and logged once. *)
Example cleaned_keyword_is_recorded :
  clean_keyword_for_api "Jasper.Ai, Inc."
    ({| keyword_mapping := []; modified_keywords := [] |}, [])
  = (("Jasper AI", true),
     ({| keyword_mapping := [];
         modified_keywords := [("Jasper.Ai, Inc.", "Jasper AI")] |},
      [(INFO, [Lit "Cleaned keyword: 'Jasper.Ai, Inc.' -> 'Jasper AI'"])])).
Proof. reflexivity. Qed.
